(** * Hamming(7,4) block code and retrocausal fixed-point solver

    A shallow embedding of [js/hamming.js] (class [HammingCode]) and of the
    class [RetrocausalFixedPointSolver], together with the properties the
    specification states about them.

    Conventions of the embedding.
    - A JavaScript array of numbers is a [list Z]; the arrays handled here only
      ever hold the integers a bit can take, and the validators reject
      everything else.
    - [a ^ b] is the 32-bit XOR of JavaScript: both operands go through
      [ToInt32] first.
    - A thrown [Error] is the constructor [Throw] of [result], carrying the
      message of the source.
    - [Math.random()] is a fixed but arbitrary sequence of draws
      [Math_random : nat -> Q] read through a cursor that every call advances;
      the draws of the real generator lie in the interval [0,1).
    - Non-integer numbers (tolerance, error rate, damping factor, convergence
      error, running average) are exact rationals; [Infinity] is a separate
      constructor.  The convergence rate, which goes through [Math.log], is a
      real number. *)

From Stdlib Require Import ZArith QArith Qreals List Sorted Ascii String Bool Lia
  Reals Lra.
Import ListNotations.

Close Scope R_scope.
Close Scope Q_scope.
Local Open Scope Z_scope.

(** ** JavaScript values *)

Inductive result (A : Type) : Type :=
| Ok (a : A)
| Throw (msg : string).
Arguments Ok {A} a.
Arguments Throw {A} msg.

Definition bind {A B : Type} (r : result A) (k : A -> result B) : result B :=
  match r with
  | Ok a => k a
  | Throw msg => Throw msg
  end.

Notation "x <- r ;; k" := (bind r (fun x => k))
  (at level 61, r at next level, right associativity).

(** A number that may be [Infinity]. *)
Inductive Number (A : Type) : Type :=
| Infinity
| Fin (a : A).
Arguments Infinity {A}.
Arguments Fin {A} a.

Definition ToInt32 (z : Z) : Z := (z + 2 ^ 31) mod 2 ^ 32 - 2 ^ 31.

(** [a ^ b] *)
Definition js_xor (a b : Z) : Z := Z.lxor (ToInt32 a) (ToInt32 b).

(** [arr[i] ^= 1] for an index inside the array.  (Outside the array
    JavaScript would add the property; no caller below reaches that case, and
    the list is left as it is.) *)
Fixpoint array_update (l : list Z) (i : nat) (f : Z -> Z) : list Z :=
  match l, i with
  | [], _ => []
  | x :: t, O => f x :: t
  | x :: t, S j => x :: array_update t j f
  end.

Definition flip_at (l : list Z) (i : Z) : list Z :=
  if (0 <=? i) && (i <? Z.of_nat (List.length l))
  then array_update l (Z.to_nat i) (fun b => js_xor b 1)
  else l.

(** [bit === 0 || bit === 1] *)
Definition is_bit (b : Z) : bool := (b =? 0) || (b =? 1).

Definition Qltb (x y : Q) : bool := negb (Qle_bool y x).

(** [i.toString(2)] for a non-negative integer, and [padStart]. *)
Fixpoint toString2_aux (fuel : nat) (i : Z) (acc : string) : string :=
  match fuel with
  | O => acc
  | S f =>
      let acc' := String (if Z.odd i then "1"%char else "0"%char) acc in
      if i / 2 =? 0 then acc' else toString2_aux f (i / 2) acc'
  end.

Definition toString2 (i : Z) : string :=
  toString2_aux (S (Z.to_nat (Z.log2 i))) i EmptyString.

Fixpoint repeat_char (c : ascii) (n : nat) : string :=
  match n with
  | O => EmptyString
  | S m => String c (repeat_char c m)
  end.

Definition padStart (s : string) (n : nat) (c : ascii) : string :=
  append (repeat_char c (n - String.length s)) s.

(** [word1[i] !== word2[i]]; an index past the end of an array reads
    [undefined], which differs from every number. *)
Definition differs_at (word1 word2 : list Z) (i : nat) : bool :=
  match nth_error word1 i, nth_error word2 i with
  | Some a, Some b => negb (a =? b)
  | None, None => false
  | _, _ => true
  end.

(** ** class HammingCode *)

Module HammingCode.

Definition generatorMatrix : list (list Z) :=
  [ [1; 1; 0; 1];
    [1; 0; 1; 1];
    [1; 0; 0; 0];
    [0; 1; 1; 1];
    [0; 1; 0; 0];
    [0; 0; 1; 0];
    [0; 0; 0; 1] ].

Definition parityCheckMatrix : list (list Z) :=
  [ [1; 0; 1; 0; 1; 0; 1];
    [0; 1; 1; 0; 0; 1; 1];
    [0; 0; 0; 1; 1; 1; 1] ].

(** The object literal [{0: -1, 1: 0, ..., 7: 6}]. *)
Definition syndromeToErrorPosition : list (Z * Z) :=
  [ (0, -1); (1, 0); (2, 1); (3, 2); (4, 3); (5, 4); (6, 5); (7, 6) ].

(** Property lookup; [None] is [undefined]. *)
Fixpoint lookup (key : Z) (table : list (Z * Z)) : option Z :=
  match table with
  | [] => None
  | (k, v) :: rest => if k =? key then Some v else lookup key rest
  end.

Definition validateDataBits (dataBits : list Z) : bool :=
  (Nat.eqb (List.length dataBits) 4) && forallb is_bit dataBits.

Definition validateCodeword (codeword : list Z) : bool :=
  (Nat.eqb (List.length codeword) 7) && forallb is_bit codeword.

(** The inner loop shared by [encode] and [calculateSyndrome]:
    [bit = 0; for (j = 0; j < n; j++) bit ^= row[j] * v[j]]. *)
Definition xor_row (row v : list Z) (n : nat) : Z :=
  fold_left (fun bit j => js_xor bit (nth j row 0 * nth j v 0)) (seq 0 n) 0.

Definition encode (dataBits : list Z) : result (list Z) :=
  if negb (validateDataBits dataBits)
  then Throw "Input must be array of exactly 4 bits (0 or 1)"
  else Ok (map (fun i => xor_row (nth i generatorMatrix []) dataBits 4)
               (seq 0 7)).

Definition calculateSyndrome (codeword : list Z) : list Z :=
  map (fun i => xor_row (nth i parityCheckMatrix []) codeword 7) (seq 0 3).

Definition syndromeToInteger (syndrome : list Z) : Z :=
  nth 0 syndrome 0 * 1 + nth 1 syndrome 0 * 2 + nth 2 syndrome 0 * 4.

Record DecodeResult : Type := {
  dataBits : list Z;
  correctedCodeword : list Z;
  errorDetected : bool;
  errorPosition : option Z;
  syndrome : list Z;
  syndromeValue : Z
}.

(** [errorPosition !== -1] *)
Definition is_not_minus_one (p : option Z) : bool :=
  match p with
  | Some v => negb (v =? -1)
  | None => true
  end.

Definition decode (codeword : list Z) : result DecodeResult :=
  if negb (validateCodeword codeword)
  then Throw "Input must be array of exactly 7 bits (0 or 1)"
  else
    let syndrome := calculateSyndrome codeword in
    let syndromeValue := syndromeToInteger syndrome in
    let errorPosition := lookup syndromeValue syndromeToErrorPosition in
    let errorDetected := is_not_minus_one errorPosition in
    let correctedCodeword :=
      if errorDetected
      then match errorPosition with
           | Some p => flip_at codeword p
           | None => codeword
           end
      else codeword in
    Ok {| dataBits := [ nth 2 correctedCodeword 0;
                        nth 4 correctedCodeword 0;
                        nth 5 correctedCodeword 0;
                        nth 6 correctedCodeword 0 ];
          correctedCodeword := correctedCodeword;
          errorDetected := errorDetected;
          errorPosition := errorPosition;
          syndrome := syndrome;
          syndromeValue := syndromeValue |}.

Section Random.
Variable Math_random : nat -> Q.

(** One draw per position, in index order; returns the noisy codeword and
    the cursor after the last draw. *)
Fixpoint injectErrors_from (rest : list Z) (errorRate : Q) (cursor : nat)
  : list Z * nat :=
  match rest with
  | [] => ([], cursor)
  | b :: tl =>
      let b' := if Qltb (Math_random cursor) errorRate
                then js_xor b 1 else b in
      let (tl', cursor') := injectErrors_from tl errorRate (S cursor) in
      (b' :: tl', cursor')
  end.

Definition injectErrors (codeword : list Z) (errorRate : Q) (cursor : nat)
  : list Z * nat :=
  injectErrors_from codeword errorRate cursor.
End Random.

Record CodebookEntry : Type := {
  input : list Z;
  codeword : list Z;
  binary : string
}.

Fixpoint generateCodebook_from (indices : list Z) : result (list CodebookEntry) :=
  match indices with
  | [] => Ok []
  | i :: rest =>
      let dataBits := [ Z.land (Z.shiftr i 3) 1;
                        Z.land (Z.shiftr i 2) 1;
                        Z.land (Z.shiftr i 1) 1;
                        Z.land i 1 ] in
      cw <- encode dataBits ;;
      tl <- generateCodebook_from rest ;;
      Ok ({| input := dataBits;
             codeword := cw;
             binary := padStart (toString2 i) 4 "0"%char |} :: tl)
  end.

Definition generateCodebook : result (list CodebookEntry) :=
  generateCodebook_from (map Z.of_nat (seq 0 16)).

Definition hammingDistance (word1 word2 : list Z) : Z :=
  fold_left (fun distance i =>
               if differs_at word1 word2 i then distance + 1 else distance)
            (seq 0 (List.length word1)) 0.

Definition Math_min (m : Number Z) (d : Z) : Number Z :=
  match m with
  | Infinity => Fin d
  | Fin v => Fin (Z.min v d)
  end.

Definition codeword_at (codebook : list CodebookEntry) (i : nat) : list Z :=
  match nth_error codebook i with
  | Some e => codeword e
  | None => []
  end.

Definition calculateMinimumDistance : result (Number Z) :=
  codebook <- generateCodebook ;;
  let n := List.length codebook in
  Ok (fold_left
        (fun minDistance i =>
           fold_left
             (fun minDistance j =>
                Math_min minDistance
                         (hammingDistance (codeword_at codebook i)
                                          (codeword_at codebook j)))
             (seq (i + 1) (n - (i + 1))) minDistance)
        (seq 0 n) Infinity).

(** The object returned by [getCodeProperties]. *)
Module CodeProperties.
Record t : Type := {
  name : string;
  n : Z;
  k : Z;
  r : Z;
  codeRate : Q;
  minimumDistance : Z;
  errorCorrectionCapability : Z;
  errorDetectionCapability : Z;
  totalCodewords : Z;
  redundancy : Q
}.
End CodeProperties.

Definition getCodeProperties : CodeProperties.t :=
  {| CodeProperties.name := "Hamming(7,4)";
     CodeProperties.n := 7;
     CodeProperties.k := 4;
     CodeProperties.r := 3;
     CodeProperties.codeRate := 4 # 7;
     CodeProperties.minimumDistance := 3;
     CodeProperties.errorCorrectionCapability := 1;
     CodeProperties.errorDetectionCapability := 2;
     CodeProperties.totalCodewords := 16;
     CodeProperties.redundancy := 3 # 7 |}.

End HammingCode.

(** ** class RetrocausalFixedPointSolver *)

Module RetrocausalFixedPointSolver.

(** The merged configuration object [config]. *)
Record Config : Type := {
  maxIterations : Z;
  convergenceTolerance : Q;
  errorRate : Q;
  dampingFactor : Q;
  enableAdaptiveStep : bool
}.

(** The [params] argument: a key that is absent is [None]. *)
Module Params.
Record t : Type := {
  maxIterations : option Z;
  convergenceTolerance : option Q;
  errorRate : option Q;
  dampingFactor : option Q;
  enableAdaptiveStep : option bool
}.
Definition empty : t :=
  {| maxIterations := None; convergenceTolerance := None;
     errorRate := None; dampingFactor := None;
     enableAdaptiveStep := None |}.
End Params.

Definition defaultParams : Config :=
  {| maxIterations := 100;
     convergenceTolerance := 1 # 1000000;
     errorRate := 1 # 20;
     dampingFactor := 1 # 2;
     enableAdaptiveStep := true |}.

Definition override {A : Type} (dflt : A) (o : option A) : A :=
  match o with
  | Some v => v
  | None => dflt
  end.

(** [{ ...this.defaultParams, ...params }] *)
Definition merge (d : Config) (p : Params.t) : Config :=
  {| maxIterations := override (maxIterations d) (Params.maxIterations p);
     convergenceTolerance :=
       override (convergenceTolerance d) (Params.convergenceTolerance p);
     errorRate := override (errorRate d) (Params.errorRate p);
     dampingFactor := override (dampingFactor d) (Params.dampingFactor p);
     enableAdaptiveStep :=
       override (enableAdaptiveStep d) (Params.enableAdaptiveStep p) |}.

(** One entry of [this.convergenceHistory]. *)
Module IterationRecord.
Record t : Type := {
  iteration : Z;
  state : list Z;
  convergenceError : Number Q;
  errorsCorrected : bool;
  errorPosition : option Z;
  encodedState : list Z;
  transmittedState : list Z
}.
End IterationRecord.

Module Statistics.
Record t : Type := {
  totalRuns : Z;
  successfulConvergences : Z;
  averageIterations : Q;
  convergenceRates : list Q;
  errorCorrectionEffectiveness : list Q
}.
End Statistics.

(** The mutable fields of the solver object.  ([startTime], which holds
    [Date.now()], and the [computationTime] derived from it are left out.) *)
Module This.
Record t : Type := {
  convergenceHistory : list IterationRecord.t;
  currentIteration : Z;
  isConverged : bool;
  convergenceError : Number Q;
  statistics : Statistics.t
}.
End This.

(** The state the constructor leaves. *)
Definition constructor : This.t :=
  {| This.convergenceHistory := [];
     This.currentIteration := 0;
     This.isConverged := false;
     This.convergenceError := Infinity;
     This.statistics :=
       {| Statistics.totalRuns := 0;
          Statistics.successfulConvergences := 0;
          Statistics.averageIterations := 0;
          Statistics.convergenceRates := [];
          Statistics.errorCorrectionEffectiveness := [] |} |}.

Record EvolutionResult : Type := {
  inputData : list Z;
  encodedState : list Z;
  transmittedState : list Z;
  decodingResult : HammingCode.DecodeResult;
  finalData : list Z;
  errorsCorrected : bool;
  errorPosition : option Z
}.

Module ErrorCorrectionStats.
(** [averageErrorsPerIteration] is [NaN] ([None]) on an empty history. *)
Record t : Type := {
  totalErrorsDetected : Z;
  errorsCorrected : Z;
  correctionEfficiency : Q;
  averageErrorsPerIteration : option Q
}.
End ErrorCorrectionStats.

Module SolutionReport.
Record t : Type := {
  finalState : list Z;
  converged : bool;
  iterations : Z;
  finalError : Number Q;
  parameters : Config;
  convergenceHistory : list IterationRecord.t;
  convergenceRate : R;
  errorCorrectionStats : ErrorCorrectionStats.t;
  memoryUsage : Z
}.
End SolutionReport.

Module Status.
Record t : Type := {
  currentIteration : Z;
  isConverged : bool;
  convergenceError : Number Q;
  historyLength : Z;
  totalRuns : Z;
  successRate : Q
}.
End Status.

(** [e <= tolerance] and [e > 0] on a number that may be [Infinity]. *)
Definition Number_leb (e : Number Q) (t : Q) : bool :=
  match e with
  | Infinity => false
  | Fin q => Qle_bool q t
  end.

Definition Number_gt0 (e : Number Q) : bool :=
  match e with
  | Infinity => true
  | Fin q => Qltb 0 q
  end.

Definition resetIterationState (this : This.t) : This.t :=
  {| This.convergenceHistory := [];
     This.currentIteration := 0;
     This.isConverged := false;
     This.convergenceError := Infinity;
     This.statistics := This.statistics this |}.

(** [differences / currentState.length]; every caller passes a 4-bit state,
    so the divisor is never 0. *)
Definition calculateConvergenceError
  (currentState : list Z) (previousState : option (list Z)) : Number Q :=
  match previousState with
  | None => Infinity
  | Some previous =>
      let differences :=
        fold_left (fun d i =>
                     if differs_at currentState previous i then d + 1 else d)
                  (seq 0 (List.length currentState)) 0 in
      Fin (inject_Z differences
           / inject_Z (Z.of_nat (List.length currentState)))%Q
  end.

Definition recordIterationStep (this : This.t) (currentData : list Z)
  (error : Number Q) (evolutionResult : EvolutionResult) : This.t :=
  {| This.convergenceHistory :=
       This.convergenceHistory this ++
       [ {| IterationRecord.iteration := This.currentIteration this;
            IterationRecord.state := currentData;
            IterationRecord.convergenceError := error;
            IterationRecord.errorsCorrected := errorsCorrected evolutionResult;
            IterationRecord.errorPosition := errorPosition evolutionResult;
            IterationRecord.encodedState := encodedState evolutionResult;
            IterationRecord.transmittedState :=
              transmittedState evolutionResult |} ];
     This.currentIteration := This.currentIteration this;
     This.isConverged := This.isConverged this;
     This.convergenceError := This.convergenceError this;
     This.statistics := This.statistics this |}.

Definition set_convergenceError (this : This.t) (e : Number Q) : This.t :=
  {| This.convergenceHistory := This.convergenceHistory this;
     This.currentIteration := This.currentIteration this;
     This.isConverged := This.isConverged this;
     This.convergenceError := e;
     This.statistics := This.statistics this |}.

Definition set_isConverged (this : This.t) (b : bool) : This.t :=
  {| This.convergenceHistory := This.convergenceHistory this;
     This.currentIteration := This.currentIteration this;
     This.isConverged := b;
     This.convergenceError := This.convergenceError this;
     This.statistics := This.statistics this |}.

(** [this.currentIteration++] *)
Definition incr_currentIteration (this : This.t) : This.t :=
  {| This.convergenceHistory := This.convergenceHistory this;
     This.currentIteration := This.currentIteration this + 1;
     This.isConverged := This.isConverged this;
     This.convergenceError := This.convergenceError this;
     This.statistics := This.statistics this |}.

Definition updateStatistics (this : This.t) : This.t :=
  let st := This.statistics this in
  let alpha := (1 # 10)%Q in
  {| This.convergenceHistory := This.convergenceHistory this;
     This.currentIteration := This.currentIteration this;
     This.isConverged := This.isConverged this;
     This.convergenceError := This.convergenceError this;
     This.statistics :=
       {| Statistics.totalRuns := Statistics.totalRuns st + 1;
          Statistics.successfulConvergences :=
            if This.isConverged this
            then Statistics.successfulConvergences st + 1
            else Statistics.successfulConvergences st;
          Statistics.averageIterations :=
            (alpha * inject_Z (This.currentIteration this + 1)
             + (1 - alpha) * Statistics.averageIterations st)%Q;
          Statistics.convergenceRates := Statistics.convergenceRates st;
          Statistics.errorCorrectionEffectiveness :=
            Statistics.errorCorrectionEffectiveness st |} |}.

Definition getStatus (this : This.t) : Status.t :=
  {| Status.currentIteration := This.currentIteration this;
     Status.isConverged := This.isConverged this;
     Status.convergenceError := This.convergenceError this;
     Status.historyLength :=
       Z.of_nat (List.length (This.convergenceHistory this));
     Status.totalRuns := Statistics.totalRuns (This.statistics this);
     Status.successRate :=
       if Statistics.totalRuns (This.statistics this) >? 0
       then (inject_Z (Statistics.successfulConvergences (This.statistics this))
             / inject_Z (Statistics.totalRuns (This.statistics this)))%Q
       else 0%Q |}.

(** [Math.log(e_curr / e_prev)] for two operands already known to be [> 0].
    [None] stands for the values that [isFinite] rejects: when one operand is
    [Infinity] the quotient is [NaN], [0] or [Infinity], and its logarithm is
    [NaN] or infinite.  On two finite positive errors the result is the real
    logarithm of the quotient. *)
Definition log_ratio (e_curr e_prev : Number Q) : option R :=
  match e_curr, e_prev with
  | Fin c, Fin p => Some (ln (Q2R c / Q2R p))
  | _, _ => None
  end.

(** [this.convergenceHistory[i].convergenceError]; the loop below only reads
    indices inside the history. *)
Definition error_at (history : list IterationRecord.t) (i : nat)
  : Number Q :=
  match nth_error history i with
  | Some step => IterationRecord.convergenceError step
  | None => Infinity
  end.

(** One turn of the loop of [calculateConvergenceRate] on the pair
    [(totalRateSum, validRates)]. *)
Definition rate_step (history : list IterationRecord.t) (acc : R * Z)
  (i : nat) : R * Z :=
  let e_prev := error_at history (i - 1) in
  let e_curr := error_at history i in
  if Number_gt0 e_prev && Number_gt0 e_curr
  then match log_ratio e_curr e_prev with
       | Some rate =>
           if Rlt_dec rate 0
           then ((fst acc + Rabs rate)%R, snd acc + 1)
           else acc
       | None => acc
       end
  else acc.

Definition calculateConvergenceRate (this : This.t) : R :=
  let history := This.convergenceHistory this in
  if (List.length history <? 3)%nat then 0%R
  else
    let '(totalRateSum, validRates) :=
      fold_left (rate_step history)
                (seq 2 (List.length history - 2)) (0%R, 0) in
    if validRates >? 0 then (totalRateSum / IZR validRates)%R else 0%R.

Definition analyzeErrorCorrection (this : This.t) : ErrorCorrectionStats.t :=
  let history := This.convergenceHistory this in
  let '(totalErrors, correctedErrors) :=
    fold_left (fun '(t, c) step =>
                 if IterationRecord.errorsCorrected step
                 then (t + 1, c + 1) else (t, c))
              history (0, 0) in
  {| ErrorCorrectionStats.totalErrorsDetected := totalErrors;
     ErrorCorrectionStats.errorsCorrected := correctedErrors;
     ErrorCorrectionStats.correctionEfficiency :=
       if totalErrors >? 0
       then (inject_Z correctedErrors / inject_Z totalErrors)%Q
       else 1%Q;
     ErrorCorrectionStats.averageErrorsPerIteration :=
       match history with
       | [] => None
       | _ :: _ =>
           Some (inject_Z totalErrors
                 / inject_Z (Z.of_nat (List.length history)))%Q
       end |}.

Definition estimateMemoryUsage (this : This.t) : Z :=
  Z.of_nat (List.length (This.convergenceHistory this)) * 100.

Definition createSolutionReport (this : This.t) (finalData : list Z)
  (config : Config) : SolutionReport.t :=
  {| SolutionReport.finalState := finalData;
     SolutionReport.converged := This.isConverged this;
     SolutionReport.iterations := This.currentIteration this + 1;
     SolutionReport.finalError := This.convergenceError this;
     SolutionReport.parameters := config;
     SolutionReport.convergenceHistory := This.convergenceHistory this;
     SolutionReport.convergenceRate := calculateConvergenceRate this;
     SolutionReport.errorCorrectionStats := analyzeErrorCorrection this;
     SolutionReport.memoryUsage := estimateMemoryUsage this |}.

Section Random.
Variable Math_random : nat -> Q.

Definition simulateTemporalTransmission (state : list Z) (errorRate : Q)
  (cursor : nat) : list Z * nat :=
  HammingCode.injectErrors Math_random state errorRate cursor.

Definition applySingleEvolutionCycle (inputData : list Z) (config : Config)
  (cursor : nat) : result EvolutionResult * nat :=
  match HammingCode.encode inputData with
  | Throw msg => (Throw msg, cursor)
  | Ok encodedState =>
      let (transmittedState, cursor') :=
        simulateTemporalTransmission encodedState (errorRate config)
                                     cursor in
      match HammingCode.decode transmittedState with
      | Throw msg => (Throw msg, cursor')
      | Ok decodingResult =>
          (Ok {| inputData := inputData;
                 encodedState := encodedState;
                 transmittedState := transmittedState;
                 decodingResult := decodingResult;
                 finalData := HammingCode.dataBits decodingResult;
                 errorsCorrected :=
                   HammingCode.errorDetected decodingResult;
                 errorPosition :=
                   HammingCode.errorPosition decodingResult |},
           cursor')
      end
  end.

(** The loop of [applyAdaptiveStep] from index [i] on; [rest] is the part
    of [currentState] not yet visited.  A draw is made only at an index
    where the two states differ.  Both states have four bits at every
    call, so [previousState[i]] is always a number. *)
Fixpoint applyAdaptiveStep_from (i : nat) (rest : list Z)
  (currentState previousState : list Z) (dampingFactor : Q) (cursor : nat)
  : list Z * nat :=
  match rest with
  | [] => ([], cursor)
  | c :: tl =>
      if differs_at currentState previousState i
      then
        let v := if Qltb (Math_random cursor) (1 - dampingFactor)%Q
                 then c else nth i previousState 0 in
        let (tl', cursor') :=
          applyAdaptiveStep_from (S i) tl currentState previousState
                                 dampingFactor (S cursor) in
        (v :: tl', cursor')
      else
        let (tl', cursor') :=
          applyAdaptiveStep_from (S i) tl currentState previousState
                                 dampingFactor cursor in
        (c :: tl', cursor')
  end.

Definition applyAdaptiveStep (currentState previousState : list Z)
  (config : Config) (cursor : nat) : list Z * nat :=
  applyAdaptiveStep_from 0 currentState currentState previousState
                         (dampingFactor config) cursor.

(** The [for] loop of [solveFixedPoint].  [remaining] counts the turns the
    loop condition [this.currentIteration < config.maxIterations] still
    allows; [this.currentIteration] itself is kept in [this].  The result
    is the value of [currentData] when the loop is left, or the error
    thrown inside it, with the solver object and the cursor of the random
    source as they are at that moment. *)
Fixpoint iterate (remaining : nat) (config : Config) (this : This.t)
  (currentData : list Z) (cursor : nat)
  : result (list Z) * This.t * nat :=
  match remaining with
  | O => (Ok currentData, this, cursor)
  | S remaining' =>
      let previousData := currentData in
      match applySingleEvolutionCycle currentData config cursor with
      | (Throw msg, cursor1) => (Throw msg, this, cursor1)
      | (Ok evolutionResult, cursor1) =>
          let currentData1 := finalData evolutionResult in
          let convergenceError :=
            calculateConvergenceError currentData1 (Some previousData) in
          let this1 := set_convergenceError this convergenceError in
          let this2 :=
            recordIterationStep this1 currentData1 convergenceError
                                evolutionResult in
          if Number_leb convergenceError (convergenceTolerance config)
          then (Ok currentData1, set_isConverged this2 true, cursor1)
          else
            let (currentData2, cursor2) :=
              if enableAdaptiveStep config
              then applyAdaptiveStep currentData1 previousData config
                                     cursor1
              else (currentData1, cursor1) in
            iterate remaining' config (incr_currentIteration this2)
                    currentData2 cursor2
      end
  end.

Definition solveFixedPoint (this : This.t) (initialData : list Z)
  (params : Params.t) (cursor : nat)
  : result SolutionReport.t * This.t * nat :=
  let config := merge defaultParams params in
  let this0 := resetIterationState this in
  match iterate (Z.to_nat (maxIterations config)) config this0
                initialData cursor with
  | (Throw msg, this1, cursor1) => (Throw msg, this1, cursor1)
  | (Ok currentData, this1, cursor1) =>
      let this2 := updateStatistics this1 in
      (Ok (createSolutionReport this2 currentData config), this2, cursor1)
  end.
End Random.

(** The object returned by [calculateDistributionStats]; the two quartiles
    are absent ([None]) from the object returned for an empty array. *)
Module DistributionStats.
Record t : Type := {
  mean : R;
  std : R;
  min : R;
  max : R;
  median : R;
  q25 : option R;
  q75 : option R
}.
End DistributionStats.

(** [[...data].sort((a, b) => a - b)]: the ascending rearrangement of the
    data, built by insertion. *)
Fixpoint insert_ascending (x : R) (sorted : list R) : list R :=
  match sorted with
  | [] => [x]
  | y :: rest =>
      if Rle_dec x y then x :: sorted else y :: insert_ascending x rest
  end.

Definition sort_ascending (data : list R) : list R :=
  fold_right insert_ascending [] data.

(** [data.reduce((sum, val) => sum + val, 0)] *)
Definition sum_of (data : list R) : R :=
  fold_left (fun sum val => (sum + val)%R) data 0%R.

(** The data are real numbers here; [Math.floor(n * 0.25)] and
    [Math.floor(n * 0.75)] on a length [n] are [n / 4] and [3 * n / 4]. *)
Definition calculateDistributionStats (data : list R) : DistributionStats.t :=
  match data with
  | [] =>
      {| DistributionStats.mean := 0; DistributionStats.std := 0;
         DistributionStats.min := 0; DistributionStats.max := 0;
         DistributionStats.median := 0;
         DistributionStats.q25 := None; DistributionStats.q75 := None |}
  | _ :: _ =>
      let sorted := sort_ascending data in
      let n := List.length data in
      let mean := (sum_of data / INR n)%R in
      let variance :=
        (fold_left (fun sum val => sum + (val - mean) ^ 2) data 0 / INR n)%R in
      {| DistributionStats.mean := mean;
         DistributionStats.std := sqrt variance;
         DistributionStats.min := nth 0 sorted 0%R;
         DistributionStats.max := nth (List.length sorted - 1) sorted 0%R;
         DistributionStats.median := nth (List.length sorted / 2) sorted 0%R;
         DistributionStats.q25 :=
           Some (nth (List.length sorted / 4) sorted 0%R);
         DistributionStats.q75 :=
           Some (nth (3 * List.length sorted / 4) sorted 0%R) |}
  end.

(** The [baseParams] argument of [runStatisticalAnalysis], for callers that
    define both [errorRate] and [convergenceTolerance]: the function reads
    these two keys and writes both into the parameters of every run.  (When
    a key is missing the value written is [NaN] or [undefined], which the
    configuration of this embedding does not represent.) *)
Module BaseParams.
Record t : Type := {
  errorRate : Q;
  convergenceTolerance : Q;
  maxIterations : option Z;
  dampingFactor : option Q;
  enableAdaptiveStep : option bool
}.
End BaseParams.

(** The object returned by [runStatisticalAnalysis]; [successRate] is [NaN]
    ([None]) when [numRuns] is 0. *)
Module AnalysisReport.
Record t : Type := {
  totalRuns : Z;
  successRate : option Q;
  averageIterations : Q;
  averageConvergenceRate : R;
  results : list SolutionReport.t;
  convergenceRateStats : DistributionStats.t;
  iterationStats : DistributionStats.t
}.
End AnalysisReport.

Section Batch.
Variable Math_random : nat -> Q.

(** [Array.from({length: 4}, () => Math.random() < 0.5 ? 1 : 0)] *)
Definition randomInitialData (cursor : nat) : list Z * nat :=
  (map (fun i => if Qltb (Math_random (cursor + i)%nat) (1 # 2) then 1 else 0)
       (seq 0 4),
   (cursor + 4)%nat).

(** The parameters of one run; the jitter consumes one draw. *)
Definition jitteredParams (baseParams : BaseParams.t) (cursor : nat)
  : Params.t * nat :=
  ({| Params.maxIterations := BaseParams.maxIterations baseParams;
      Params.convergenceTolerance :=
        Some (BaseParams.convergenceTolerance baseParams);
      Params.errorRate :=
        Some (BaseParams.errorRate baseParams
              + (Math_random cursor - (1 # 2)) * (2 # 100))%Q;
      Params.dampingFactor := BaseParams.dampingFactor baseParams;
      Params.enableAdaptiveStep := BaseParams.enableAdaptiveStep baseParams |},
   S cursor).

(** The loop of [runStatisticalAnalysis] on [results], [successCount] and
    [totalIterations]. *)
Fixpoint analysis_loop (remaining : nat) (baseParams : BaseParams.t)
  (this : This.t) (cursor : nat) (results : list SolutionReport.t)
  (successCount totalIterations : Z)
  : result (list SolutionReport.t * Z * Z) * This.t * nat :=
  match remaining with
  | O => (Ok (results, successCount, totalIterations), this, cursor)
  | S remaining' =>
      let (initialData, cursor1) := randomInitialData cursor in
      let (params, cursor2) := jitteredParams baseParams cursor1 in
      match solveFixedPoint Math_random this initialData params cursor2 with
      | (Throw msg, this', cursor3) => (Throw msg, this', cursor3)
      | (Ok res, this', cursor3) =>
          if SolutionReport.converged res
          then analysis_loop remaining' baseParams this' cursor3
                             (results ++ [res]) (successCount + 1)
                             (totalIterations + SolutionReport.iterations res)
          else analysis_loop remaining' baseParams this' cursor3
                             (results ++ [res]) successCount totalIterations
      end
  end.

Definition runStatisticalAnalysis (this : This.t) (numRuns : Z)
  (baseParams : BaseParams.t) (cursor : nat)
  : result AnalysisReport.t * This.t * nat :=
  match analysis_loop (Z.to_nat numRuns) baseParams this cursor [] 0 0 with
  | (Throw msg, this', cursor') => (Throw msg, this', cursor')
  | (Ok (results, successCount, totalIterations), this', cursor') =>
      let convergedResults := filter SolutionReport.converged results in
      let convergenceRates :=
        map SolutionReport.convergenceRate convergedResults in
      (Ok {| AnalysisReport.totalRuns := numRuns;
             AnalysisReport.successRate :=
               if numRuns =? 0 then None
               else Some (inject_Z successCount / inject_Z numRuns)%Q;
             AnalysisReport.averageIterations :=
               if successCount >? 0
               then (inject_Z totalIterations / inject_Z successCount)%Q
               else 0%Q;
             AnalysisReport.averageConvergenceRate :=
               match convergenceRates with
               | [] => 0%R
               | _ :: _ =>
                   (sum_of convergenceRates
                    / INR (List.length convergenceRates))%R
               end;
             AnalysisReport.results := results;
             AnalysisReport.convergenceRateStats :=
               calculateDistributionStats convergenceRates;
             AnalysisReport.iterationStats :=
               calculateDistributionStats
                 (map (fun r => IZR (SolutionReport.iterations r))
                      convergedResults) |},
       this', cursor')
  end.
End Batch.

End RetrocausalFixedPointSolver.

(** * Definitions used by the statements *)

(** All bit vectors of a given length. *)
Fixpoint words (n : nat) : list (list Z) :=
  match n with
  | O => [[]]
  | S m => flat_map (fun w => [0 :: w; 1 :: w]) (words m)
  end.

Definition list_Z_eqb (a b : list Z) : bool :=
  if list_eq_dec Z.eq_dec a b then true else false.

Definition option_Z_eqb (a b : option Z) : bool :=
  match a, b with
  | Some x, Some y => x =? y
  | None, None => true
  | _, _ => false
  end.

(** The check of the round trip on one data word. *)
Definition roundtrip_check (d : list Z) : bool :=
  match HammingCode.encode d with
  | Ok c =>
      match HammingCode.decode c with
      | Ok r => list_Z_eqb (HammingCode.dataBits r) d
                && negb (HammingCode.errorDetected r)
      | Throw _ => false
      end
  | Throw _ => false
  end.

(** The check of the correction of a flip of position [p] on one data word. *)
Definition single_error_check (d : list Z) (p : Z) : bool :=
  match HammingCode.encode d with
  | Ok c =>
      match HammingCode.decode (flip_at c p) with
      | Ok r => list_Z_eqb (HammingCode.dataBits r) d
                && HammingCode.errorDetected r
                && option_Z_eqb (HammingCode.errorPosition r) (Some p)
      | Throw _ => false
      end
  | Throw _ => false
  end.

Definition positions : list Z := map Z.of_nat (seq 0 7).

(** The bitwise complement of a bit vector. *)
Definition complement (c : list Z) : list Z := map (fun b => 1 - b) c.

(** The draws of [Math.random()] lie in the interval [0,1). *)
Definition unit_interval_draws (Math_random : nat -> Q) : Prop :=
  forall n, (0 <= Math_random n /\ Math_random n < 1)%Q.

(** [encode] returns a well-formed codeword. *)
Definition encode_valid_check (d : list Z) : bool :=
  match HammingCode.encode d with
  | Ok c => HammingCode.validateCodeword c
  | Throw _ => false
  end.

(** [decode] returns a well-formed data word. *)
Definition decode_valid_check (c : list Z) : bool :=
  match HammingCode.decode c with
  | Ok r => HammingCode.validateDataBits (HammingCode.dataBits r)
  | Throw _ => false
  end.

(** Replacing the statistics of a solver object, its other fields kept. *)
Definition set_statistics (this : RetrocausalFixedPointSolver.This.t)
  (st : RetrocausalFixedPointSolver.Statistics.t)
  : RetrocausalFixedPointSolver.This.t :=
  {| RetrocausalFixedPointSolver.This.convergenceHistory :=
       RetrocausalFixedPointSolver.This.convergenceHistory this;
     RetrocausalFixedPointSolver.This.currentIteration :=
       RetrocausalFixedPointSolver.This.currentIteration this;
     RetrocausalFixedPointSolver.This.isConverged :=
       RetrocausalFixedPointSolver.This.isConverged this;
     RetrocausalFixedPointSolver.This.convergenceError :=
       RetrocausalFixedPointSolver.This.convergenceError this;
     RetrocausalFixedPointSolver.This.statistics := st |}.

(** The three components of what an invocation leaves: the value returned or
    the error thrown, the solver object, and the cursor of the random
    source. *)
Definition result_of {A : Type}
  (x : result A * RetrocausalFixedPointSolver.This.t * nat) : result A :=
  fst (fst x).

Definition solver_after {A : Type}
  (x : result A * RetrocausalFixedPointSolver.This.t * nat)
  : RetrocausalFixedPointSolver.This.t :=
  snd (fst x).

Definition cursor_after {A : Type}
  (x : result A * RetrocausalFixedPointSolver.This.t * nat) : nat :=
  snd x.

Definition returned {A : Type} (r : result A) : bool :=
  match r with
  | Ok _ => true
  | Throw _ => false
  end.

(** A recorded step whose convergence error is above the tolerance. *)
Definition misses_tolerance (tolerance : Q)
  (step : RetrocausalFixedPointSolver.IterationRecord.t) : Prop :=
  RetrocausalFixedPointSolver.Number_leb
    (RetrocausalFixedPointSolver.IterationRecord.convergenceError step)
    tolerance = false.

(** The isolation the specification asks for between two successive
    invocations on one solver: what can be observed on the solver after the
    second invocation is what a solver fresh from the constructor would show
    after that invocation alone. *)
Definition no_state_survives : Prop :=
  forall (Math_random : nat -> Q)
         (d1 : list Z) (p1 : RetrocausalFixedPointSolver.Params.t)
         (d2 : list Z) (p2 : RetrocausalFixedPointSolver.Params.t)
         (cursor : nat),
    let first :=
      RetrocausalFixedPointSolver.solveFixedPoint
        Math_random RetrocausalFixedPointSolver.constructor d1 p1 cursor in
    let second :=
      RetrocausalFixedPointSolver.solveFixedPoint
        Math_random (solver_after first) d2 p2 (cursor_after first) in
    let alone :=
      RetrocausalFixedPointSolver.solveFixedPoint
        Math_random RetrocausalFixedPointSolver.constructor d2 p2
        (cursor_after first) in
    RetrocausalFixedPointSolver.getStatus (solver_after second)
    = RetrocausalFixedPointSolver.getStatus (solver_after alone).

(** Parameter objects used in the examples. *)
Definition params_noiseless : RetrocausalFixedPointSolver.Params.t :=
  {| RetrocausalFixedPointSolver.Params.maxIterations := Some 10;
     RetrocausalFixedPointSolver.Params.convergenceTolerance :=
       Some (1 # 1000000)%Q;
     RetrocausalFixedPointSolver.Params.errorRate := Some 0%Q;
     RetrocausalFixedPointSolver.Params.dampingFactor := None;
     RetrocausalFixedPointSolver.Params.enableAdaptiveStep := None |}.

Definition params_negative_maxIterations
  : RetrocausalFixedPointSolver.Params.t :=
  {| RetrocausalFixedPointSolver.Params.maxIterations := Some (-1);
     RetrocausalFixedPointSolver.Params.convergenceTolerance := None;
     RetrocausalFixedPointSolver.Params.errorRate := None;
     RetrocausalFixedPointSolver.Params.dampingFactor := None;
     RetrocausalFixedPointSolver.Params.enableAdaptiveStep := None |}.

Definition params_all_flipped : RetrocausalFixedPointSolver.Params.t :=
  {| RetrocausalFixedPointSolver.Params.maxIterations := Some 3;
     RetrocausalFixedPointSolver.Params.convergenceTolerance :=
       Some (1 # 2)%Q;
     RetrocausalFixedPointSolver.Params.errorRate := Some 1%Q;
     RetrocausalFixedPointSolver.Params.dampingFactor := None;
     RetrocausalFixedPointSolver.Params.enableAdaptiveStep := Some false |}.

(** *** The convergence rate as the specification words it *)

Definition recorded_errors
  (history : list RetrocausalFixedPointSolver.IterationRecord.t)
  : list (Number Q) :=
  map RetrocausalFixedPointSolver.IterationRecord.convergenceError history.

(** The pairs [(e_(i-1), e_i)] of neighbours of a list. *)
Fixpoint consecutive_pairs (l : list (Number Q))
  : list (Number Q * Number Q) :=
  match l with
  | a :: (b :: _) as rest => (a, b) :: consecutive_pairs rest
  | _ => []
  end.

(** The pairs whose second component is the error of iteration 3 or later. *)
Definition pairs_from_third (errors : list (Number Q))
  : list (Number Q * Number Q) :=
  consecutive_pairs (tl errors).

(** [-log(e_i / e_(i-1))] of a pair [(e_(i-1), e_i)] of finite errors. *)
Definition neg_log_ratio (pair : Number Q * Number Q) : R :=
  match pair with
  | (Fin e_prev, Fin e_curr) => (- ln (Q2R e_curr / Q2R e_prev))%R
  | _ => 0%R
  end.

Definition Number_nonzero (e : Number Q) : bool :=
  match e with
  | Infinity => true
  | Fin q => negb (Qeq_bool q 0)
  end.

Definition both_nonzero (pair : Number Q * Number Q) : bool :=
  Number_nonzero (fst pair) && Number_nonzero (snd pair).

Definition mean (l : list R) : R :=
  (fold_right Rplus 0 l / INR (List.length l))%R.

(** The metric of the specification: the mean of the negative log-ratios over
    all consecutive pairs of non-zero errors, from iteration 3 on. *)
Definition claimed_convergence_rate
  (history : list RetrocausalFixedPointSolver.IterationRecord.t) : R :=
  mean (map neg_log_ratio
            (filter both_nonzero (pairs_from_third (recorded_errors history)))).

(** A pair of finite positive errors of which the second is the smaller. *)
Definition decreasing_positive (pair : Number Q * Number Q) : bool :=
  match pair with
  | (Fin e_prev, Fin e_curr) =>
      Qltb 0 e_prev && Qltb 0 e_curr && Qltb e_curr e_prev
  | _ => false
  end.

(** The same mean taken over the decreasing pairs only, and 0 when there is
    none. *)
Definition decreasing_convergence_rate
  (history : list RetrocausalFixedPointSolver.IterationRecord.t) : R :=
  match filter decreasing_positive
               (pairs_from_third (recorded_errors history)) with
  | [] => 0%R
  | pairs => mean (map neg_log_ratio pairs)
  end.

(** The body of the loop of [calculateConvergenceRate] on a pair of errors. *)
Definition rate_step_on_pair (acc : R * Z) (pair : Number Q * Number Q)
  : R * Z :=
  if RetrocausalFixedPointSolver.Number_gt0 (fst pair)
     && RetrocausalFixedPointSolver.Number_gt0 (snd pair)
  then match RetrocausalFixedPointSolver.log_ratio (snd pair) (fst pair) with
       | Some rate =>
           if Rlt_dec rate 0
           then ((fst acc + Rabs rate)%R, snd acc + 1)
           else acc
       | None => acc
       end
  else acc.

(** Draws that flip positions 0, 1, 2 of the first three codewords and
    positions 1 to 4 of the fourth, at error rate 1/2 (seven draws are made
    per cycle). *)
Definition draws_three_steps_then_worse (k : nat) : Q :=
  if existsb (Nat.eqb k) [0; 1; 2; 7; 8; 9; 14; 15; 16; 22; 23; 24; 25]%nat
  then 0%Q else (9 # 10)%Q.

Definition params_four_turns : RetrocausalFixedPointSolver.Params.t :=
  {| RetrocausalFixedPointSolver.Params.maxIterations := Some 4;
     RetrocausalFixedPointSolver.Params.convergenceTolerance :=
       Some (1 # 10)%Q;
     RetrocausalFixedPointSolver.Params.errorRate := Some (1 # 2)%Q;
     RetrocausalFixedPointSolver.Params.dampingFactor := None;
     RetrocausalFixedPointSolver.Params.enableAdaptiveStep := Some false |}.

(** *** Checks run over all data words and codewords *)

(** Position-wise XOR of two bit vectors. *)
Fixpoint xor_words (a b : list Z) : list Z :=
  match a, b with
  | x :: a', y :: b' => Z.lxor x y :: xor_words a' b'
  | _, _ => []
  end.

(** Two different data words are encoded at distance 3 or more. *)
Definition distance_check (d1 d2 : list Z) : bool :=
  list_Z_eqb d1 d2
  || match HammingCode.encode d1, HammingCode.encode d2 with
     | Ok c1, Ok c2 => 3 <=? HammingCode.hammingDistance c1 c2
     | _, _ => false
     end.

(** The codeword of a XOR is the XOR of the codewords. *)
Definition linear_check (d1 d2 : list Z) : bool :=
  match HammingCode.encode d1, HammingCode.encode d2,
        HammingCode.encode (xor_words d1 d2) with
  | Ok c1, Ok c2, Ok c => list_Z_eqb c (xor_words c1 c2)
  | _, _, _ => false
  end.

(** [decode] returns a codeword at distance 0 or 1 of the word received. *)
Definition nearest_check (c : list Z) : bool :=
  match HammingCode.decode c with
  | Ok r =>
      match HammingCode.encode (HammingCode.dataBits r) with
      | Ok c' => list_Z_eqb c' (HammingCode.correctedCodeword r)
      | Throw _ => false
      end
      && (HammingCode.hammingDistance c (HammingCode.correctedCodeword r)
          =? (if HammingCode.errorDetected r then 1 else 0))
  | Throw _ => false
  end.

(** The syndrome value is in the table and names the position corrected. *)
Definition position_check (c : list Z) : bool :=
  match HammingCode.decode c with
  | Ok r =>
      (0 <=? HammingCode.syndromeValue r)
      && (HammingCode.syndromeValue r <=? 7)
      && option_Z_eqb (HammingCode.errorPosition r)
                      (Some (HammingCode.syndromeValue r - 1))
      && Bool.eqb (HammingCode.errorDetected r)
                  (negb (HammingCode.syndromeValue r =? 0))
      && list_Z_eqb (HammingCode.correctedCodeword r)
                    (if HammingCode.errorDetected r
                     then flip_at c (HammingCode.syndromeValue r - 1)
                     else c)
  | Throw _ => false
  end.

(** Two flips are detected and corrected to another data word. *)
Definition double_error_check (d : list Z) (p q : Z) : bool :=
  (p =? q)
  || match HammingCode.encode d with
     | Ok c =>
         match HammingCode.decode (flip_at (flip_at c p) q) with
         | Ok r =>
             HammingCode.errorDetected r
             && negb (list_Z_eqb (HammingCode.dataBits r) d)
             && negb (option_Z_eqb (HammingCode.errorPosition r) (Some p))
             && negb (option_Z_eqb (HammingCode.errorPosition r) (Some q))
             && (HammingCode.hammingDistance
                   c (HammingCode.correctedCodeword r) =? 3)
         | Throw _ => false
         end
     | Throw _ => false
     end.

(** *** Shapes of a run *)

(** What one record of the history says about the cycle it was taken from:
    it holds the encoding of a well-formed input, a well-formed word
    received, and the outcome of decoding that word. *)
Definition record_consistent
  (step : RetrocausalFixedPointSolver.IterationRecord.t) : Prop :=
  exists input r,
    HammingCode.validateDataBits input = true /\
    HammingCode.encode input
    = Ok (RetrocausalFixedPointSolver.IterationRecord.encodedState step) /\
    HammingCode.validateCodeword
      (RetrocausalFixedPointSolver.IterationRecord.transmittedState step)
    = true /\
    HammingCode.decode
      (RetrocausalFixedPointSolver.IterationRecord.transmittedState step)
    = Ok r /\
    RetrocausalFixedPointSolver.IterationRecord.state step
    = HammingCode.dataBits r /\
    RetrocausalFixedPointSolver.IterationRecord.errorsCorrected step
    = HammingCode.errorDetected r /\
    RetrocausalFixedPointSolver.IterationRecord.errorPosition step
    = HammingCode.errorPosition r /\
    RetrocausalFixedPointSolver.IterationRecord.convergenceError step
    = RetrocausalFixedPointSolver.calculateConvergenceError
        (RetrocausalFixedPointSolver.IterationRecord.state step) (Some input).

(** The records of a list are numbered from [first] on. *)
Definition numbered_from (first : Z)
  (steps : list RetrocausalFixedPointSolver.IterationRecord.t) : Prop :=
  forall j step,
    nth_error steps j = Some step ->
    RetrocausalFixedPointSolver.IterationRecord.iteration step
    = first + Z.of_nat j.

(** A recorded step whose convergence error is within the tolerance. *)
Definition meets_tolerance (tolerance : Q)
  (step : RetrocausalFixedPointSolver.IterationRecord.t) : Prop :=
  RetrocausalFixedPointSolver.Number_leb
    (RetrocausalFixedPointSolver.IterationRecord.convergenceError step)
    tolerance = true.

(** The solver objects that a program can hold: the one the constructor
    makes, and the one any call of [solveFixedPoint] leaves. *)
Inductive reachable : RetrocausalFixedPointSolver.This.t -> Prop :=
| reachable_constructor :
    reachable RetrocausalFixedPointSolver.constructor
| reachable_solve (Math_random : nat -> Q)
    (this : RetrocausalFixedPointSolver.This.t) (d : list Z)
    (params : RetrocausalFixedPointSolver.Params.t) (cursor : nat) :
    reachable this ->
    reachable
      (solver_after
         (RetrocausalFixedPointSolver.solveFixedPoint
            Math_random this d params cursor)).

(** Decoding the complement of a codeword gives the complement of the data
    word, without an error being detected, and all four bits differ. *)
Definition complement_check (d : list Z) : bool :=
  match HammingCode.encode d with
  | Ok c =>
      match HammingCode.decode (complement c) with
      | Ok r =>
          list_Z_eqb (HammingCode.dataBits r) (complement d)
          && negb (HammingCode.errorDetected r)
          && (HammingCode.hammingDistance (complement d) d =? 4)
          && list_Z_eqb (complement (complement d)) d
          && HammingCode.validateDataBits (complement d)
      | Throw _ => false
      end
  | Throw _ => false
  end.

(** The state after [n] cycles in which every bit was flipped. *)
Definition flipped_times (n : nat) (d : list Z) : list Z :=
  if Nat.even n then d else complement d.

Definition params_loose_tolerance : RetrocausalFixedPointSolver.Params.t :=
  {| RetrocausalFixedPointSolver.Params.maxIterations := Some 5;
     RetrocausalFixedPointSolver.Params.convergenceTolerance := Some 1%Q;
     RetrocausalFixedPointSolver.Params.errorRate := Some (1 # 2)%Q;
     RetrocausalFixedPointSolver.Params.dampingFactor := None;
     RetrocausalFixedPointSolver.Params.enableAdaptiveStep := None |}.

Definition params_negative_tolerance : RetrocausalFixedPointSolver.Params.t :=
  {| RetrocausalFixedPointSolver.Params.maxIterations := Some 5;
     RetrocausalFixedPointSolver.Params.convergenceTolerance :=
       Some (- (1 # 1000000))%Q;
     RetrocausalFixedPointSolver.Params.errorRate := Some 0%Q;
     RetrocausalFixedPointSolver.Params.dampingFactor := None;
     RetrocausalFixedPointSolver.Params.enableAdaptiveStep := None |}.

(** The solver object after one run without noise. *)
Definition solver_after_noiseless_run : RetrocausalFixedPointSolver.This.t :=
  solver_after
    (RetrocausalFixedPointSolver.solveFixedPoint
       (fun _ => (1 # 2)%Q) RetrocausalFixedPointSolver.constructor
       [1; 0; 1; 1] params_noiseless 0%nat).

(** * Properties *)

(** ** Enumerating bit vectors *)

Lemma list_Z_eqb_eq (a b : list Z) : list_Z_eqb a b = true -> a = b.
Proof.
  unfold list_Z_eqb. destruct (list_eq_dec Z.eq_dec a b); [trivial | discriminate].
Qed.

Lemma option_Z_eqb_eq (a b : option Z) : option_Z_eqb a b = true -> a = b.
Proof.
  destruct a, b; simpl; try discriminate; trivial.
  intro H. apply Z.eqb_eq in H. now subst.
Qed.

Lemma is_bit_cases (b : Z) : is_bit b = true -> b = 0 \/ b = 1.
Proof.
  unfold is_bit. intro H. apply orb_true_iff in H.
  destruct H as [H | H]; apply Z.eqb_eq in H; auto.
Qed.

Lemma words_complete (n : nat) (w : list Z) :
  List.length w = n -> forallb is_bit w = true -> In w (words n).
Proof.
  revert w. induction n as [| n IH]; intros [| b w] Hlen Hbits;
    simpl in Hlen; try discriminate.
  - now left.
  - simpl in Hbits. apply andb_true_iff in Hbits as [Hb Hw].
    simpl. apply in_flat_map. exists w. split.
    + apply IH; [lia | exact Hw].
    + destruct (is_bit_cases b Hb) as [-> | ->]; simpl; auto.
Qed.

Lemma validateDataBits_words (d : list Z) :
  HammingCode.validateDataBits d = true -> In d (words 4).
Proof.
  unfold HammingCode.validateDataBits. intro H.
  apply andb_true_iff in H as [Hlen Hbits].
  apply Nat.eqb_eq in Hlen. now apply words_complete.
Qed.

Lemma validateCodeword_words (c : list Z) :
  HammingCode.validateCodeword c = true -> In c (words 7).
Proof.
  unfold HammingCode.validateCodeword. intro H.
  apply andb_true_iff in H as [Hlen Hbits].
  apply Nat.eqb_eq in Hlen. now apply words_complete.
Qed.

(** ** The block code *)

Lemma positions_complete (p : Z) : 0 <= p < 7 -> In p positions.
Proof.
  intro H. unfold positions. apply in_map_iff. exists (Z.to_nat p). split.
  - lia.
  - apply in_seq. lia.
Qed.

Lemma roundtrip_all : forallb roundtrip_check (words 4) = true.
Proof. vm_compute. reflexivity. Qed.

Lemma single_error_all :
  forallb (fun d => forallb (single_error_check d) positions) (words 4) = true.
Proof. vm_compute. reflexivity. Qed.

Lemma roundtrip_of_valid (d : list Z) :
  HammingCode.validateDataBits d = true ->
  exists c r,
    HammingCode.encode d = Ok c /\
    HammingCode.decode c = Ok r /\
    HammingCode.dataBits r = d /\
    HammingCode.errorDetected r = false.
Proof.
  intro Hd. apply validateDataBits_words in Hd.
  pose proof (proj1 (forallb_forall _ _) roundtrip_all d Hd) as H.
  unfold roundtrip_check in H.
  destruct (HammingCode.encode d) as [c |]; [| discriminate].
  destruct (HammingCode.decode c) as [r |] eqn:Hdec; [| discriminate].
  apply andb_true_iff in H as [H1 H2].
  exists c, r. split; [reflexivity |]. split; [exact Hdec |]. split.
  - now apply list_Z_eqb_eq.
  - now apply negb_true_iff.
Qed.

(** C3.  For every 4-bit data word [d], [encode d] returns a codeword whose
    decoding returns [dataBits] equal to [d] and [errorDetected] false. *)
Theorem decode_encode_roundtrip (d : list Z) :
  HammingCode.validateDataBits d = true ->
  exists c r,
    HammingCode.encode d = Ok c /\
    HammingCode.decode c = Ok r /\
    HammingCode.dataBits r = d /\
    HammingCode.errorDetected r = false.
Proof. exact (roundtrip_of_valid d). Qed.

Lemma decode_encode_roundtrip_witness :
  exists c r,
    HammingCode.encode [1; 0; 1; 1] = Ok c /\
    HammingCode.decode c = Ok r /\
    HammingCode.dataBits r = [1; 0; 1; 1] /\
    HammingCode.errorDetected r = false.
Proof. apply (decode_encode_roundtrip [1; 0; 1; 1]). reflexivity. Defined.

(** C1.  For every 4-bit data word [d] and every position [p] of the seven
    (array indices 0 to 6, as [errorPosition] counts them), flipping bit [p]
    of [encode d] and decoding returns [dataBits] equal to [d],
    [errorDetected] true and [errorPosition] equal to [p]. *)
Theorem decode_corrects_single_flip (d : list Z) (p : Z) :
  HammingCode.validateDataBits d = true ->
  0 <= p < 7 ->
  exists c r,
    HammingCode.encode d = Ok c /\
    HammingCode.decode (flip_at c p) = Ok r /\
    HammingCode.dataBits r = d /\
    HammingCode.errorDetected r = true /\
    HammingCode.errorPosition r = Some p.
Proof.
  intros Hd Hp. apply validateDataBits_words in Hd.
  apply positions_complete in Hp.
  pose proof (proj1 (forallb_forall _ _) single_error_all d Hd) as H.
  pose proof (proj1 (forallb_forall _ _) H p Hp) as H'. clear H.
  unfold single_error_check in H'.
  destruct (HammingCode.encode d) as [c |]; [| discriminate].
  destruct (HammingCode.decode (flip_at c p)) as [r |] eqn:Hdec;
    [| discriminate].
  apply andb_true_iff in H' as [H12 H3].
  apply andb_true_iff in H12 as [H1 H2].
  exists c, r. split; [reflexivity |]. split; [exact Hdec |].
  split; [| split].
  - now apply list_Z_eqb_eq.
  - exact H2.
  - now apply option_Z_eqb_eq.
Qed.

Lemma decode_corrects_single_flip_witness :
  exists c r,
    HammingCode.encode [0; 1; 1; 0] = Ok c /\
    HammingCode.decode (flip_at c 4) = Ok r /\
    HammingCode.dataBits r = [0; 1; 1; 0] /\
    HammingCode.errorDetected r = true /\
    HammingCode.errorPosition r = Some 4.
Proof.
  apply (decode_corrects_single_flip [0; 1; 1; 0] 4); [reflexivity | lia].
Defined.

(** C8.  [calculateMinimumDistance], the minimum of [hammingDistance] over
    all pairs of distinct entries of the codebook of 16 codewords, is 3. *)
Theorem minimum_distance_is_3 :
  HammingCode.calculateMinimumDistance = Ok (Fin 3).
Proof. vm_compute. reflexivity. Qed.

(** ** Noise injection *)

Lemma Qltb_false (x y : Q) : (y <= x)%Q -> Qltb x y = false.
Proof.
  intro H. unfold Qltb. apply negb_false_iff. now apply Qle_bool_iff.
Qed.

Lemma Qltb_true (x y : Q) : (x < y)%Q -> Qltb x y = true.
Proof.
  intro H. unfold Qltb. apply negb_true_iff.
  destruct (Qle_bool y x) eqn:E; [| reflexivity].
  apply Qle_bool_iff in E. exfalso. exact (Qlt_not_le _ _ H E).
Qed.

Lemma js_xor_bit (b : Z) : is_bit b = true -> js_xor b 1 = 1 - b.
Proof.
  intro H. destruct (is_bit_cases b H) as [-> | ->]; reflexivity.
Qed.

Lemma js_xor_is_bit (b : Z) : is_bit b = true -> is_bit (js_xor b 1) = true.
Proof.
  intro H. destruct (is_bit_cases b H) as [-> | ->]; reflexivity.
Qed.

Section InjectErrors.
Variable Math_random : nat -> Q.

Lemma injectErrors_from_shape (l : list Z) (rate : Q) (cursor : nat) :
  List.length (fst (HammingCode.injectErrors_from Math_random l rate cursor))
  = List.length l /\
  snd (HammingCode.injectErrors_from Math_random l rate cursor)
  = (cursor + List.length l)%nat.
Proof.
  revert cursor. induction l as [| b l IH]; intro cursor; simpl.
  - split; [reflexivity | lia].
  - specialize (IH (S cursor)).
    destruct (HammingCode.injectErrors_from Math_random l rate (S cursor))
      as [tl' cursor'].
    simpl in *. destruct IH as [IH1 IH2]. split; lia.
Qed.

Lemma injectErrors_from_bits (l : list Z) (rate : Q) (cursor : nat) :
  forallb is_bit l = true ->
  forallb is_bit
    (fst (HammingCode.injectErrors_from Math_random l rate cursor)) = true.
Proof.
  revert cursor. induction l as [| b l IH]; intros cursor H; simpl.
  - reflexivity.
  - simpl in H. apply andb_true_iff in H as [Hb Hl].
    specialize (IH (S cursor) Hl).
    destruct (HammingCode.injectErrors_from Math_random l rate (S cursor))
      as [tl' cursor'].
    simpl in *. rewrite IH, andb_true_r.
    destruct (Qltb (Math_random cursor) rate);
      [now apply js_xor_is_bit | exact Hb].
Qed.

Lemma injectErrors_valid (c : list Z) (rate : Q) (cursor : nat) :
  HammingCode.validateCodeword c = true ->
  HammingCode.validateCodeword
    (fst (HammingCode.injectErrors Math_random c rate cursor)) = true.
Proof.
  unfold HammingCode.validateCodeword, HammingCode.injectErrors. intro H.
  apply andb_true_iff in H as [Hlen Hbits].
  rewrite (proj1 (injectErrors_from_shape c rate cursor)), Hlen.
  now rewrite injectErrors_from_bits.
Qed.

Lemma injectErrors_from_no_flip (l : list Z) (rate : Q) (cursor : nat) :
  (forall n, (rate <= Math_random n)%Q) ->
  fst (HammingCode.injectErrors_from Math_random l rate cursor) = l.
Proof.
  intro Hr. revert cursor. induction l as [| b l IH]; intro cursor; simpl.
  - reflexivity.
  - specialize (IH (S cursor)).
    destruct (HammingCode.injectErrors_from Math_random l rate (S cursor))
      as [tl' cursor'].
    simpl in *. rewrite (Qltb_false _ _ (Hr cursor)). now rewrite IH.
Qed.

Lemma injectErrors_from_all_flip (l : list Z) (rate : Q) (cursor : nat) :
  (forall n, (Math_random n < rate)%Q) ->
  fst (HammingCode.injectErrors_from Math_random l rate cursor)
  = map (fun b => js_xor b 1) l.
Proof.
  intro Hr. revert cursor. induction l as [| b l IH]; intro cursor; simpl.
  - reflexivity.
  - specialize (IH (S cursor)).
    destruct (HammingCode.injectErrors_from Math_random l rate (S cursor))
      as [tl' cursor'].
    simpl in *. rewrite (Qltb_true _ _ (Hr cursor)). now rewrite IH.
Qed.
End InjectErrors.

Lemma map_xor_complement (c : list Z) :
  forallb is_bit c = true -> map (fun b => js_xor b 1) c = complement c.
Proof.
  unfold complement. induction c as [| b c IH]; simpl; intro H.
  - reflexivity.
  - apply andb_true_iff in H as [Hb Hc].
    now rewrite (js_xor_bit b Hb), (IH Hc).
Qed.

(** C5.  For every 7-bit codeword [c] and every sequence of draws of the
    random source in [0,1), [injectErrors c 0] returns [c] and
    [injectErrors c 1] returns the bitwise complement of [c]. *)
Theorem injectErrors_rate_0_and_1
  (Math_random : nat -> Q) (c : list Z) (cursor : nat) :
  unit_interval_draws Math_random ->
  HammingCode.validateCodeword c = true ->
  fst (HammingCode.injectErrors Math_random c 0 cursor) = c /\
  fst (HammingCode.injectErrors Math_random c 1 cursor) = complement c.
Proof.
  intros Hr Hc. unfold HammingCode.injectErrors. split.
  - apply injectErrors_from_no_flip. intro n. apply (Hr n).
  - rewrite injectErrors_from_all_flip by (intro n; apply (Hr n)).
    apply map_xor_complement.
    unfold HammingCode.validateCodeword in Hc.
    now apply andb_true_iff in Hc as [_ Hc].
Qed.

Lemma injectErrors_rate_0_and_1_witness :
  fst (HammingCode.injectErrors (fun _ => (1 # 2)%Q) [1; 0; 1; 1; 0; 1; 0] 0 0%nat)
  = [1; 0; 1; 1; 0; 1; 0] /\
  fst (HammingCode.injectErrors (fun _ => (1 # 2)%Q) [1; 0; 1; 1; 0; 1; 0] 1 0%nat)
  = complement [1; 0; 1; 1; 0; 1; 0].
Proof.
  apply (injectErrors_rate_0_and_1 (fun _ => (1 # 2)%Q) [1; 0; 1; 1; 0; 1; 0] 0%nat).
  - intro n. split; [discriminate | reflexivity].
  - reflexivity.
Defined.

(** ** Well-formedness along one evolution cycle *)

Lemma encode_valid_all : forallb encode_valid_check (words 4) = true.
Proof. vm_compute. reflexivity. Qed.

Lemma decode_valid_all : forallb decode_valid_check (words 7) = true.
Proof. vm_compute. reflexivity. Qed.

Lemma encode_valid (d : list Z) :
  HammingCode.validateDataBits d = true ->
  exists c, HammingCode.encode d = Ok c /\
            HammingCode.validateCodeword c = true.
Proof.
  intro Hd. apply validateDataBits_words in Hd.
  pose proof (proj1 (forallb_forall _ _) encode_valid_all d Hd) as H.
  unfold encode_valid_check in H.
  destruct (HammingCode.encode d) as [c |]; [| discriminate].
  now exists c.
Qed.

Lemma decode_valid (c : list Z) :
  HammingCode.validateCodeword c = true ->
  exists r, HammingCode.decode c = Ok r /\
            HammingCode.validateDataBits (HammingCode.dataBits r) = true.
Proof.
  intro Hc. apply validateCodeword_words in Hc.
  pose proof (proj1 (forallb_forall _ _) decode_valid_all c Hc) as H.
  unfold decode_valid_check in H.
  destruct (HammingCode.decode c) as [r |]; [| discriminate].
  now exists r.
Qed.

(** ** The solver *)

Import RetrocausalFixedPointSolver.

Arguments calculateConvergenceError : simpl never.
Arguments Number_leb : simpl never.

Lemma differs_at_refl (d : list Z) (i : nat) : differs_at d d i = false.
Proof.
  unfold differs_at. destruct (nth_error d i) as [a |]; [| reflexivity].
  now rewrite Z.eqb_refl.
Qed.

Lemma calculateConvergenceError_refl (d : list Z) :
  calculateConvergenceError d (Some d)
  = Fin (inject_Z 0 / inject_Z (Z.of_nat (List.length d)))%Q.
Proof.
  unfold calculateConvergenceError. do 2 f_equal.
  generalize (seq 0 (List.length d)). intro l.
  induction l as [| i l IH]; simpl; [reflexivity |].
  now rewrite differs_at_refl.
Qed.

Lemma Number_leb_zero (x tol : Q) :
  (0 < tol)%Q -> Number_leb (Fin (inject_Z 0 / x)%Q) tol = true.
Proof.
  intro H. unfold Number_leb. apply Qle_bool_iff. unfold Qdiv.
  rewrite Qmult_0_l. now apply Qlt_le_weak.
Qed.

Lemma nth_is_bit (l : list Z) (i : nat) :
  forallb is_bit l = true -> is_bit (nth i l 0) = true.
Proof.
  revert i. induction l as [| b l IH]; intros [| i] H; simpl; trivial.
  - simpl in H. now apply andb_true_iff in H as [H _].
  - simpl in H. apply andb_true_iff in H as [_ H]. now apply IH.
Qed.

Lemma iterate_S (Math_random : nat -> Q) (remaining : nat) (config : Config)
  (this : This.t) (currentData : list Z) (cursor : nat) :
  iterate Math_random (S remaining) config this currentData cursor
  = match applySingleEvolutionCycle Math_random currentData config cursor with
    | (Throw msg, cursor1) => (Throw msg, this, cursor1)
    | (Ok evolutionResult, cursor1) =>
        let currentData1 := finalData evolutionResult in
        let convergenceError :=
          calculateConvergenceError currentData1 (Some currentData) in
        let this2 :=
          recordIterationStep (set_convergenceError this convergenceError)
                              currentData1 convergenceError evolutionResult in
        if Number_leb convergenceError (convergenceTolerance config)
        then (Ok currentData1, set_isConverged this2 true, cursor1)
        else
          let (currentData2, cursor2) :=
            if enableAdaptiveStep config
            then applyAdaptiveStep Math_random currentData1 currentData config
                                   cursor1
            else (currentData1, cursor1) in
          iterate Math_random remaining config (incr_currentIteration this2)
                  currentData2 cursor2
    end.
Proof. reflexivity. Qed.

Section SolverFacts.
Variable Math_random : nat -> Q.

Lemma cycle_of_valid (d : list Z) (config : Config) (cursor : nat) :
  HammingCode.validateDataBits d = true ->
  exists ev cursor',
    applySingleEvolutionCycle Math_random d config cursor = (Ok ev, cursor')
    /\ HammingCode.validateDataBits (finalData ev) = true.
Proof.
  intro Hd. unfold applySingleEvolutionCycle, simulateTemporalTransmission.
  destruct (encode_valid d Hd) as (cw & Henc & Hcw). rewrite Henc.
  pose proof (injectErrors_valid Math_random cw (errorRate config) cursor Hcw)
    as Hnoisy.
  destruct (HammingCode.injectErrors Math_random cw (errorRate config) cursor)
    as [noisy cursor'].
  simpl in Hnoisy.
  destruct (decode_valid noisy Hnoisy) as (r & Hdec & Hr). rewrite Hdec.
  eexists. eexists. split; [reflexivity | exact Hr].
Qed.

Lemma cycle_noiseless (d : list Z) (config : Config) (cursor : nat) :
  HammingCode.validateDataBits d = true ->
  (forall n, (errorRate config <= Math_random n)%Q) ->
  exists ev cursor',
    applySingleEvolutionCycle Math_random d config cursor = (Ok ev, cursor')
    /\ finalData ev = d.
Proof.
  intros Hd Hrate.
  unfold applySingleEvolutionCycle, simulateTemporalTransmission.
  destruct (roundtrip_of_valid d Hd) as (cw & r & Henc & Hdec & Hdata & _).
  rewrite Henc.
  pose proof (injectErrors_from_no_flip Math_random cw (errorRate config)
                                        cursor Hrate) as Hsame.
  unfold HammingCode.injectErrors.
  destruct (HammingCode.injectErrors_from Math_random cw (errorRate config)
                                          cursor) as [noisy cursor'].
  simpl in Hsame. subst noisy. rewrite Hdec.
  eexists. eexists. split; [reflexivity | exact Hdata].
Qed.

Lemma applyAdaptiveStep_from_shape (i : nat) (rest cur prev : list Z)
  (damping : Q) (cursor : nat) :
  forallb is_bit rest = true ->
  forallb is_bit prev = true ->
  List.length
    (fst (applyAdaptiveStep_from Math_random i rest cur prev damping cursor))
  = List.length rest /\
  forallb is_bit
    (fst (applyAdaptiveStep_from Math_random i rest cur prev damping cursor))
  = true.
Proof.
  intros Hrest Hprev. revert i cursor.
  induction rest as [| c tl IH]; intros i cursor; simpl.
  - split; reflexivity.
  - simpl in Hrest. apply andb_true_iff in Hrest as [Hc Htl].
    specialize (IH Htl).
    destruct (differs_at cur prev i).
    + specialize (IH (S i) (S cursor)).
      destruct (applyAdaptiveStep_from Math_random (S i) tl cur prev damping
                                       (S cursor)) as [tl' cursor'].
      simpl in *. destruct IH as [IH1 IH2]. split; [lia |].
      rewrite IH2, andb_true_r.
      destruct (Qltb (Math_random cursor) (1 - damping));
        [exact Hc | now apply nth_is_bit].
    + specialize (IH (S i) cursor).
      destruct (applyAdaptiveStep_from Math_random (S i) tl cur prev damping
                                       cursor) as [tl' cursor'].
      simpl in *. destruct IH as [IH1 IH2]. split; [lia |].
      now rewrite IH2, andb_true_r.
Qed.

Lemma applyAdaptiveStep_valid (cur prev : list Z) (config : Config)
  (cursor : nat) :
  HammingCode.validateDataBits cur = true ->
  HammingCode.validateDataBits prev = true ->
  HammingCode.validateDataBits
    (fst (applyAdaptiveStep Math_random cur prev config cursor)) = true.
Proof.
  unfold HammingCode.validateDataBits, applyAdaptiveStep. intros Hc Hp.
  apply andb_true_iff in Hc as [Hlen Hbits].
  apply andb_true_iff in Hp as [_ Hpbits].
  destruct (applyAdaptiveStep_from_shape 0 cur cur prev
              (dampingFactor config) cursor Hbits Hpbits) as [H1 H2].
  now rewrite H1, Hlen, H2.
Qed.

(** On a well-formed data word the loop never throws, and it leaves a
    well-formed data word. *)
Lemma iterate_of_valid (remaining : nat) (config : Config) :
  forall (this : This.t) (d : list Z) (cursor : nat),
    HammingCode.validateDataBits d = true ->
    exists d' this' cursor',
      iterate Math_random remaining config this d cursor
      = (Ok d', this', cursor')
      /\ HammingCode.validateDataBits d' = true.
Proof.
  induction remaining as [| n IH]; intros this d cursor Hd.
  - simpl. now exists d, this, cursor.
  - rewrite iterate_S.
    destruct (cycle_of_valid d config cursor Hd) as (ev & c1 & Hev & Hfd).
    rewrite Hev. cbv zeta.
    destruct (Number_leb _ _).
    + eexists. eexists. eexists. split; [reflexivity | exact Hfd].
    + destruct (enableAdaptiveStep config).
      * pose proof (applyAdaptiveStep_valid (finalData ev) d config c1 Hfd Hd)
          as Hadapt.
        destruct (applyAdaptiveStep Math_random (finalData ev) d config c1)
          as [d2 c2].
        simpl in Hadapt. now apply IH.
      * now apply IH.
Qed.
End SolverFacts.

Lemma analyze_fold_equal (history : list IterationRecord.t) (n : Z) :
  exists m,
    fold_left (fun '(t, c) step =>
                 if IterationRecord.errorsCorrected step
                 then (t + 1, c + 1) else (t, c))
              history (n, n) = (m, m).
Proof.
  revert n. induction history as [| step h IH]; intro n; simpl.
  - now exists n.
  - destruct (IterationRecord.errorsCorrected step); apply IH.
Qed.

Lemma correctionEfficiency_one (this : This.t) :
  (ErrorCorrectionStats.correctionEfficiency (analyzeErrorCorrection this)
   == 1)%Q.
Proof.
  unfold analyzeErrorCorrection.
  destruct (analyze_fold_equal (This.convergenceHistory this) 0) as [m Hm].
  rewrite Hm. simpl.
  destruct (m >? 0) eqn:E; [| reflexivity].
  apply Qmult_inv_r. intro H0.
  assert (m = 0) by (unfold Qeq in H0; simpl in H0; lia).
  subst m. discriminate.
Qed.

Section SolverRuns.
Variable Math_random : nat -> Q.

Lemma iterate_set_statistics (remaining : nat) (config : Config)
  (st : Statistics.t) :
  forall (this : This.t) (d : list Z) (cursor : nat),
    iterate Math_random remaining config (set_statistics this st) d cursor
    = (result_of (iterate Math_random remaining config this d cursor),
       set_statistics
         (solver_after (iterate Math_random remaining config this d cursor))
         st,
       cursor_after (iterate Math_random remaining config this d cursor)).
Proof.
  induction remaining as [| n IH]; intros this d cursor.
  - reflexivity.
  - rewrite !iterate_S.
    destruct (applySingleEvolutionCycle Math_random d config cursor)
      as [[ev | msg] c1]; [| reflexivity].
    cbv zeta. destruct (Number_leb _ _); [reflexivity |].
    destruct (if enableAdaptiveStep config
              then applyAdaptiveStep Math_random (finalData ev) d config c1
              else (finalData ev, c1)) as [d2 c2].
    apply (IH (incr_currentIteration
                 (recordIterationStep
                    (set_convergenceError this
                       (calculateConvergenceError (finalData ev) (Some d)))
                    (finalData ev)
                    (calculateConvergenceError (finalData ev) (Some d))
                    ev))).
Qed.

Lemma iterate_statistics (remaining : nat) (config : Config) :
  forall (this : This.t) (d : list Z) (cursor : nat),
    This.statistics
      (solver_after (iterate Math_random remaining config this d cursor))
    = This.statistics this.
Proof.
  induction remaining as [| n IH]; intros this d cursor.
  - reflexivity.
  - rewrite iterate_S.
    destruct (applySingleEvolutionCycle Math_random d config cursor)
      as [[ev | msg] c1]; [| reflexivity].
    cbv zeta. destruct (Number_leb _ _); [reflexivity |].
    destruct (if enableAdaptiveStep config
              then applyAdaptiveStep Math_random (finalData ev) d config c1
              else (finalData ev, c1)) as [d2 c2].
    rewrite IH. reflexivity.
Qed.

(** When no recorded step meets the tolerance, the loop has used all its
    turns. *)
Lemma iterate_exhausted (remaining : nat) (config : Config) :
  forall (this : This.t) (d : list Z) (cursor : nat)
         (d' : list Z) (this' : This.t) (cursor' : nat),
    iterate Math_random remaining config this d cursor
    = (Ok d', this', cursor') ->
    Forall (misses_tolerance (convergenceTolerance config))
           (This.convergenceHistory this') ->
    This.isConverged this' = This.isConverged this /\
    List.length (This.convergenceHistory this')
    = (List.length (This.convergenceHistory this) + remaining)%nat /\
    This.currentIteration this'
    = This.currentIteration this + Z.of_nat remaining.
Proof.
  induction remaining as [| n IH];
    intros this d cursor d' this' cursor' Hrun Hmiss.
  - simpl in Hrun. inversion Hrun; subst.
    repeat split; [lia | lia].
  - rewrite iterate_S in Hrun.
    destruct (applySingleEvolutionCycle Math_random d config cursor)
      as [[ev | msg] c1]; [| discriminate].
    cbv zeta in Hrun.
    destruct (Number_leb _ _) eqn:Hleb.
    + inversion Hrun; subst. simpl in Hmiss.
      apply Forall_app in Hmiss as [_ Hlast].
      inversion Hlast as [| x l Hx _]; subst.
      unfold misses_tolerance in Hx. simpl in Hx. congruence.
    + destruct (if enableAdaptiveStep config
                then applyAdaptiveStep Math_random (finalData ev) d config c1
                else (finalData ev, c1)) as [d2 c2].
      destruct (IH _ _ _ _ _ _ Hrun Hmiss) as (H1 & H2 & H3).
      simpl in H1, H2, H3. rewrite length_app in H2. simpl in H2.
      repeat split; [exact H1 | lia | lia].
Qed.

(** What [solveFixedPoint] returns on a well-formed data word. *)
Lemma solveFixedPoint_of_valid (this : This.t) (d : list Z)
  (params : Params.t) (cursor : nat) :
  HammingCode.validateDataBits d = true ->
  exists d' this1 cursor',
    iterate Math_random
            (Z.to_nat (maxIterations (merge defaultParams params)))
            (merge defaultParams params) (resetIterationState this)
            d cursor
    = (Ok d', this1, cursor') /\
    solveFixedPoint Math_random this d params cursor
    = (Ok (createSolutionReport (updateStatistics this1) d'
                                (merge defaultParams params)),
       updateStatistics this1, cursor').
Proof.
  intro Hd.
  destruct (iterate_of_valid Math_random
              (Z.to_nat (maxIterations (merge defaultParams params)))
              (merge defaultParams params) (resetIterationState this)
              d cursor Hd) as (d' & this1 & c' & Hrun & _).
  exists d', this1, c'. split; [exact Hrun |].
  unfold solveFixedPoint. now rewrite Hrun.
Qed.
End SolverRuns.

(** C4.  For every 4-bit data word [d], every sequence of draws in [0,1) and
    every configuration with error rate 0, a positive [maxIterations] and a
    tolerance in (0,1), whatever the damping factor and the adaptive-step
    switch, [solveFixedPoint] returns a report with [converged] true,
    [finalState] equal to [d] and at most 3 iterations. *)
Theorem noiseless_solve_converges
  (Math_random : nat -> Q) (this : This.t) (d : list Z) (params : Params.t)
  (cursor : nat) :
  unit_interval_draws Math_random ->
  HammingCode.validateDataBits d = true ->
  (errorRate (merge defaultParams params) == 0)%Q ->
  0 < maxIterations (merge defaultParams params) ->
  (0 < convergenceTolerance (merge defaultParams params) /\
   convergenceTolerance (merge defaultParams params) < 1)%Q ->
  exists report,
    result_of (solveFixedPoint Math_random this d params cursor) = Ok report /\
    SolutionReport.converged report = true /\
    SolutionReport.finalState report = d /\
    SolutionReport.iterations report <= 3.
Proof.
  intros Hdraws Hd Hrate Hmax [Htol _].
  unfold solveFixedPoint.
  set (config := merge defaultParams params) in *.
  destruct (Z.to_nat (maxIterations config)) as [| n] eqn:Hn; [lia |].
  rewrite iterate_S.
  assert (Hle : forall k, (errorRate config <= Math_random k)%Q).
  { intro k. apply Qle_trans with 0%Q.
    - rewrite Hrate. apply Qle_refl.
    - apply (Hdraws k). }
  destruct (cycle_noiseless Math_random d config cursor Hd Hle)
    as (ev & c1 & Hev & Hfd).
  rewrite Hev. cbv zeta. rewrite Hfd.
  rewrite calculateConvergenceError_refl, (Number_leb_zero _ _ Htol).
  eexists. split; [reflexivity |]. simpl. repeat split. lia.
Qed.

Lemma noiseless_solve_converges_witness :
  exists report,
    result_of (solveFixedPoint (fun _ => (1 # 2)%Q) constructor [1; 0; 1; 1]
                               params_noiseless 0%nat) = Ok report /\
    SolutionReport.converged report = true /\
    SolutionReport.finalState report = [1; 0; 1; 1] /\
    SolutionReport.iterations report <= 3.
Proof.
  apply (noiseless_solve_converges (fun _ => (1 # 2)%Q) constructor
                                   [1; 0; 1; 1] params_noiseless 0%nat).
  - intro n. split; [discriminate | reflexivity].
  - reflexivity.
  - reflexivity.
  - reflexivity.
  - split; reflexivity.
Defined.

(** On a well-formed data word [solveFixedPoint] returns a report whatever the
    configuration is, and counts the run in its statistics. *)
Lemma solveFixedPoint_accepts_any_config
  (Math_random : nat -> Q) (this : This.t) (d : list Z) (params : Params.t)
  (cursor : nat) :
  HammingCode.validateDataBits d = true ->
  exists report,
    result_of (solveFixedPoint Math_random this d params cursor) = Ok report /\
    Statistics.totalRuns
      (This.statistics
         (solver_after (solveFixedPoint Math_random this d params cursor)))
    = Statistics.totalRuns (This.statistics this) + 1.
Proof.
  intro Hd.
  destruct (solveFixedPoint_of_valid Math_random this d params cursor Hd)
    as (d' & this1 & c' & Hrun & Hsolve).
  rewrite Hsolve. eexists. split; [reflexivity |].
  pose proof (iterate_statistics Math_random
                (Z.to_nat (maxIterations (merge defaultParams params)))
                (merge defaultParams params) (resetIterationState this)
                d cursor) as Hst.
  rewrite Hrun in Hst. unfold solver_after in *. simpl in *.
  now rewrite Hst.
Qed.

(** C2, the code at a failing input.  With [{maxIterations: -1}] the call
    does not fail: on a solver fresh from the constructor it returns a report
    with [converged] false, 1 iteration, the input as final state and an empty
    history, and it has counted one run in the statistics. *)
Theorem negative_maxIterations_is_accepted (Math_random : nat -> Q) :
  exists report,
    result_of (solveFixedPoint Math_random constructor [1; 0; 1; 0]
                               params_negative_maxIterations 0%nat)
    = Ok report /\
    SolutionReport.converged report = false /\
    SolutionReport.iterations report = 1 /\
    SolutionReport.finalState report = [1; 0; 1; 0] /\
    SolutionReport.convergenceHistory report = [] /\
    Statistics.totalRuns
      (This.statistics
         (solver_after
            (solveFixedPoint Math_random constructor [1; 0; 1; 0]
                             params_negative_maxIterations 0%nat))) = 1.
Proof.
  eexists. split; [reflexivity |]. repeat split.
Qed.

(** C10.  For every invocation on a 4-bit data word, whatever the
    configuration and the draws, [solveFixedPoint] returns a report whose
    [errorCorrectionStats.correctionEfficiency] is 1. *)
Theorem correctionEfficiency_is_one
  (Math_random : nat -> Q) (this : This.t) (d : list Z) (params : Params.t)
  (cursor : nat) :
  HammingCode.validateDataBits d = true ->
  exists report,
    result_of (solveFixedPoint Math_random this d params cursor) = Ok report /\
    (ErrorCorrectionStats.correctionEfficiency
       (SolutionReport.errorCorrectionStats report) == 1)%Q.
Proof.
  intro Hd.
  destruct (solveFixedPoint_of_valid Math_random this d params cursor Hd)
    as (d' & this1 & c' & _ & Hsolve).
  rewrite Hsolve. eexists. split; [reflexivity |].
  apply correctionEfficiency_one.
Qed.

Lemma correctionEfficiency_is_one_witness :
  exists report,
    result_of (solveFixedPoint (fun _ => 0%Q) constructor [0; 1; 1; 0]
                               params_all_flipped 0%nat) = Ok report /\
    (ErrorCorrectionStats.correctionEfficiency
       (SolutionReport.errorCorrectionStats report) == 1)%Q.
Proof.
  apply (correctionEfficiency_is_one (fun _ => 0%Q) constructor [0; 1; 1; 0]
                                     params_all_flipped 0%nat).
  reflexivity.
Defined.

(** C9.  For every invocation on a 4-bit data word with a non-negative
    [maxIterations] in which no recorded step meets the tolerance, the report
    has [converged] false, a history of exactly [maxIterations] records and
    [iterations] equal to [maxIterations + 1]. *)
Theorem exhausted_run_reports_one_more
  (Math_random : nat -> Q) (this : This.t) (d : list Z) (params : Params.t)
  (cursor : nat) :
  HammingCode.validateDataBits d = true ->
  0 <= maxIterations (merge defaultParams params) ->
  Forall (misses_tolerance (convergenceTolerance (merge defaultParams params)))
         (This.convergenceHistory
            (solver_after (solveFixedPoint Math_random this d params cursor))) ->
  exists report,
    result_of (solveFixedPoint Math_random this d params cursor) = Ok report /\
    SolutionReport.converged report = false /\
    Z.of_nat (List.length (SolutionReport.convergenceHistory report))
    = maxIterations (merge defaultParams params) /\
    SolutionReport.iterations report
    = maxIterations (merge defaultParams params) + 1.
Proof.
  intros Hd Hmax.
  destruct (solveFixedPoint_of_valid Math_random this d params cursor Hd)
    as (d' & this1 & c' & Hrun & Hsolve).
  rewrite Hsolve. unfold solver_after, result_of. simpl. intro Hmiss.
  destruct (iterate_exhausted Math_random _ _ _ _ _ _ _ _ Hrun Hmiss)
    as (H1 & H2 & H3).
  simpl in H1, H2, H3.
  simpl in Hmax.
  eexists. split; [reflexivity |]. simpl. repeat split; [exact H1 | lia | lia].
Qed.

Lemma exhausted_run_reports_one_more_witness :
  exists report,
    result_of (solveFixedPoint (fun _ => 0%Q) constructor [0; 0; 0; 0]
                               params_all_flipped 0%nat) = Ok report /\
    SolutionReport.converged report = false /\
    Z.of_nat (List.length (SolutionReport.convergenceHistory report)) = 3 /\
    SolutionReport.iterations report = 3 + 1.
Proof.
  apply (exhausted_run_reports_one_more (fun _ => 0%Q) constructor
                                        [0; 0; 0; 0] params_all_flipped 0%nat).
  - reflexivity.
  - discriminate.
  - lazy. repeat constructor.
Defined.

(** ** Isolation between invocations *)

Section Isolation.
Variable Math_random : nat -> Q.

(** Neither the value returned nor the draws consumed depend on the solver
    object the invocation starts from. *)
Lemma solveFixedPoint_ignores_solver (this this' : This.t) (d : list Z)
  (params : Params.t) (cursor : nat) :
  result_of (solveFixedPoint Math_random this d params cursor)
  = result_of (solveFixedPoint Math_random this' d params cursor) /\
  cursor_after (solveFixedPoint Math_random this d params cursor)
  = cursor_after (solveFixedPoint Math_random this' d params cursor).
Proof.
  unfold solveFixedPoint.
  change (resetIterationState this)
    with (set_statistics (resetIterationState this') (This.statistics this)).
  rewrite iterate_set_statistics.
  destruct (iterate Math_random _ _ (resetIterationState this') d cursor)
    as [[[d' | msg] t] c]; split; reflexivity.
Qed.

(** Each invocation that returns adds one to [totalRuns]; one that throws
    leaves the statistics alone. *)
Lemma solveFixedPoint_totalRuns (this : This.t) (d : list Z)
  (params : Params.t) (cursor : nat) :
  Status.totalRuns
    (getStatus (solver_after (solveFixedPoint Math_random this d params cursor)))
  = Status.totalRuns (getStatus this)
    + (if returned (result_of (solveFixedPoint Math_random this d params cursor))
       then 1 else 0).
Proof.
  unfold solveFixedPoint.
  pose proof (iterate_statistics Math_random
                (Z.to_nat (maxIterations (merge defaultParams params)))
                (merge defaultParams params) (resetIterationState this)
                d cursor) as Hst.
  destruct (iterate Math_random _ _ (resetIterationState this) d cursor)
    as [[[d' | msg] t] c]; unfold solver_after, result_of in *;
    simpl in *; rewrite Hst; lia.
Qed.
End Isolation.

(** C7, as the code has it.  For two successive invocations on one solver,
    the value the second returns (or the error it throws) and the draws it
    consumes are those of the same invocation on a solver fresh from the
    constructor; the statistics of the solver do survive: [totalRuns] after
    the second invocation is [totalRuns] after the first plus one when the
    second returns. *)
Theorem second_result_independent_of_first
  (Math_random : nat -> Q) (this : This.t)
  (d1 : list Z) (p1 : Params.t) (d2 : list Z) (p2 : Params.t) (cursor : nat) :
  let first := solveFixedPoint Math_random this d1 p1 cursor in
  let second :=
    solveFixedPoint Math_random (solver_after first) d2 p2
                    (cursor_after first) in
  let alone :=
    solveFixedPoint Math_random constructor d2 p2 (cursor_after first) in
  result_of second = result_of alone /\
  cursor_after second = cursor_after alone /\
  Status.totalRuns (getStatus (solver_after second))
  = Status.totalRuns (getStatus (solver_after first))
    + (if returned (result_of second) then 1 else 0).
Proof.
  intros first second alone. subst second alone.
  destruct (solveFixedPoint_ignores_solver Math_random (solver_after first)
              constructor d2 p2 (cursor_after first)) as [H1 H2].
  split; [exact H1 |]. split; [exact H2 |].
  apply solveFixedPoint_totalRuns.
Qed.

(** C7, the claim as stated fails: after two invocations the solver shows
    two runs, a fresh solver after the second invocation alone shows one. *)
Lemma state_survives_across_invocations : ~ no_state_survives.
Proof.
  intro H.
  specialize (H (fun _ => (1 # 2)%Q) [0; 0; 0; 0] params_noiseless
                [0; 0; 0; 0] params_noiseless 0%nat).
  cbv zeta in H. apply (f_equal Status.totalRuns) in H.
  lazy in H. discriminate.
Qed.

(** ** The convergence rate *)

Lemma Qltb_iff (x y : Q) : Qltb x y = true <-> (x < y)%Q.
Proof.
  split; [| apply Qltb_true].
  unfold Qltb. intro H. apply negb_true_iff in H.
  apply Qnot_le_lt. intro Hle. apply Qle_bool_iff in Hle. congruence.
Qed.

Lemma Q2R_pos (q : Q) : (0 < q)%Q -> (0 < Q2R q)%R.
Proof.
  intro H. apply Qlt_Rlt in H.
  replace (Q2R 0) with 0%R in H by (unfold Q2R; simpl; lra). exact H.
Qed.

(** The sign of the logarithm of a quotient of positive errors. *)
Lemma log_ratio_negative (c p : Q) :
  (0 < p)%Q -> (0 < c)%Q ->
  (ln (Q2R c / Q2R p) < 0)%R <-> (c < p)%Q.
Proof.
  intros Hp Hc.
  pose proof (Q2R_pos p Hp) as HRp. pose proof (Q2R_pos c Hc) as HRc.
  assert (Hquot : (0 < Q2R c / Q2R p)%R) by now apply Rdiv_lt_0_compat.
  split.
  - intro Hln. apply Qnot_le_lt. intro Hle. apply Qle_Rle in Hle.
    assert (H1 : (1 <= Q2R c / Q2R p)%R).
    { apply Rmult_le_reg_r with (Q2R p); [exact HRp |].
      unfold Rdiv. rewrite Rmult_assoc, Rinv_l by lra. lra. }
    assert (Hge : (ln 1 <= ln (Q2R c / Q2R p))%R).
    { destruct H1 as [H1 | H1].
      - left. apply ln_increasing; lra.
      - rewrite <- H1. right. reflexivity. }
    rewrite ln_1 in Hge. lra.
  - intro Hlt. apply Qlt_Rlt in Hlt.
    assert (H1 : (Q2R c / Q2R p < 1)%R).
    { apply Rmult_lt_reg_r with (Q2R p); [exact HRp |].
      unfold Rdiv. rewrite Rmult_assoc, Rinv_l by lra. lra. }
    rewrite <- ln_1. now apply ln_increasing.
Qed.

Lemma rate_step_on_pair_decreasing (acc : R * Z) (pair : Number Q * Number Q) :
  rate_step_on_pair acc pair
  = if decreasing_positive pair
    then ((fst acc + neg_log_ratio pair)%R, snd acc + 1)
    else acc.
Proof.
  destruct pair as [[| p] [| c]]; unfold rate_step_on_pair; simpl;
    try reflexivity.
  - now destruct (Qltb 0 c).
  - now destruct (Qltb 0 p).
  - destruct (Qltb 0 p) eqn:Hp; [| reflexivity].
    destruct (Qltb 0 c) eqn:Hc; [| reflexivity].
    apply Qltb_iff in Hp. apply Qltb_iff in Hc. simpl.
    destruct (Rlt_dec (ln (Q2R c / Q2R p)) 0) as [Hneg | Hpos].
    + rewrite (proj2 (Qltb_iff c p))
        by now apply (log_ratio_negative c p Hp Hc).
      now rewrite Rabs_left.
    + destruct (Qltb c p) eqn:Hcp; [| reflexivity].
      apply Qltb_iff in Hcp. exfalso. apply Hpos.
      now apply (log_ratio_negative c p Hp Hc).
Qed.

Lemma error_at_middle (pre : list IterationRecord.t) (a : IterationRecord.t)
  (rest : list IterationRecord.t) :
  error_at (pre ++ a :: rest) (List.length pre)
  = IterationRecord.convergenceError a.
Proof.
  unfold error_at. rewrite nth_error_app2 by lia.
  now rewrite Nat.sub_diag.
Qed.

(** The loop over the indices visits the consecutive pairs in order. *)
Lemma rate_fold_pairs (rest : list IterationRecord.t) :
  forall (pre : list IterationRecord.t) (a : IterationRecord.t) (acc : R * Z),
    fold_left (rate_step (pre ++ a :: rest))
              (seq (S (List.length pre)) (List.length rest)) acc
    = fold_left rate_step_on_pair
                (consecutive_pairs (recorded_errors (a :: rest))) acc.
Proof.
  induction rest as [| b rest IH]; intros pre a acc.
  - reflexivity.
  - cbn [List.length seq fold_left].
    change (consecutive_pairs (recorded_errors (a :: b :: rest)))
      with ((IterationRecord.convergenceError a,
             IterationRecord.convergenceError b)
              :: consecutive_pairs (recorded_errors (b :: rest))).
    cbn [fold_left].
    assert (Hstep : rate_step (pre ++ a :: b :: rest) acc (S (List.length pre))
                    = rate_step_on_pair acc
                        (IterationRecord.convergenceError a,
                         IterationRecord.convergenceError b)).
    { unfold rate_step, rate_step_on_pair. cbn [fst snd].
      replace (S (List.length pre) - 1)%nat with (List.length pre) by lia.
      rewrite error_at_middle.
      replace (pre ++ a :: b :: rest) with ((pre ++ [a]) ++ b :: rest)
        by (rewrite <- app_assoc; reflexivity).
      replace (S (List.length pre)) with (List.length (pre ++ [a]))
        by (rewrite length_app; simpl; lia).
      now rewrite error_at_middle. }
    rewrite Hstep.
    specialize (IH (pre ++ [a]) b
                   (rate_step_on_pair acc
                      (IterationRecord.convergenceError a,
                       IterationRecord.convergenceError b))).
    rewrite <- app_assoc in IH. cbn [app] in IH.
    rewrite length_app in IH. cbn [List.length] in IH.
    replace (List.length pre + 1)%nat with (S (List.length pre)) in IH by lia.
    exact IH.
Qed.

Lemma rate_fold_filter (pairs : list (Number Q * Number Q)) :
  forall (total : R) (valid : Z),
    fold_left rate_step_on_pair pairs (total, valid)
    = ((total
        + fold_right Rplus 0
            (map neg_log_ratio (filter decreasing_positive pairs)))%R,
       valid + Z.of_nat (List.length (filter decreasing_positive pairs))).
Proof.
  induction pairs as [| pair pairs IH]; intros total valid.
  - simpl. f_equal; [lra | lia].
  - cbn [fold_left filter]. rewrite rate_step_on_pair_decreasing.
    destruct (decreasing_positive pair).
    + rewrite IH. cbn [fst snd map fold_right List.length]. f_equal; [lra | lia].
    + apply IH.
Qed.

(** The loop of [calculateConvergenceRate] computes the mean of the negative
    log-ratios over the decreasing pairs of positive errors from the third
    record on, and 0 when there is no such pair. *)
Lemma calculateConvergenceRate_decreasing (this : This.t) :
  calculateConvergenceRate this
  = decreasing_convergence_rate (This.convergenceHistory this).
Proof.
  unfold calculateConvergenceRate, decreasing_convergence_rate.
  destruct (This.convergenceHistory this) as [| h0 [| h1 rest]];
    try reflexivity.
  destruct rest as [| h2 rest]; [reflexivity |].
  change (List.length (h0 :: h1 :: h2 :: rest) <? 3)%nat with false.
  cbv iota.
  change (List.length (h0 :: h1 :: h2 :: rest) - 2)%nat
    with (List.length (h2 :: rest)).
  change (fold_left (rate_step (h0 :: h1 :: h2 :: rest))
                    (seq 2 (List.length (h2 :: rest))) (0%R, 0))
    with (fold_left (rate_step ([h0] ++ h1 :: h2 :: rest))
                    (seq (S (List.length [h0])) (List.length (h2 :: rest)))
                    (0%R, 0)).
  rewrite (rate_fold_pairs (h2 :: rest) [h0] h1 (0%R, 0)).
  rewrite rate_fold_filter.
  change (pairs_from_third (recorded_errors (h0 :: h1 :: h2 :: rest)))
    with (consecutive_pairs (recorded_errors (h1 :: h2 :: rest))).
  destruct (filter decreasing_positive
              (consecutive_pairs (recorded_errors (h1 :: h2 :: rest))))
    as [| pair pairs].
  - reflexivity.
  - set (l := pair :: pairs).
    replace (0 + Z.of_nat (List.length l) >? 0) with true
      by (symmetry; apply Z.gtb_lt; subst l; simpl; lia).
    unfold mean. rewrite length_map, Rplus_0_l, Z.add_0_l.
    now rewrite INR_IZR_INZ.
Qed.

(** C6, as the code has it.  For every invocation on a 4-bit data word whose
    history has at least 3 records, the convergence rate of the report is the
    mean of [-log(e_i / e_(i-1))] over those consecutive pairs of positive
    errors, from iteration 3 on, in which the error decreased
    ([e_i < e_(i-1)]), and 0 when there is no such pair. *)
Theorem convergenceRate_is_mean_over_decreasing_pairs
  (Math_random : nat -> Q) (this : This.t) (d : list Z) (params : Params.t)
  (cursor : nat) :
  HammingCode.validateDataBits d = true ->
  (3 <= List.length
          (This.convergenceHistory
             (solver_after (solveFixedPoint Math_random this d params cursor))))%nat ->
  exists report,
    result_of (solveFixedPoint Math_random this d params cursor) = Ok report /\
    SolutionReport.convergenceRate report
    = decreasing_convergence_rate (SolutionReport.convergenceHistory report).
Proof.
  intros Hd _.
  destruct (solveFixedPoint_of_valid Math_random this d params cursor Hd)
    as (d' & this1 & c' & _ & Hsolve).
  rewrite Hsolve. eexists. split; [reflexivity |].
  apply calculateConvergenceRate_decreasing.
Qed.

Lemma convergenceRate_is_mean_over_decreasing_pairs_witness :
  exists report,
    result_of (solveFixedPoint draws_three_steps_then_worse constructor
                               [0; 0; 0; 0] params_four_turns 0%nat)
    = Ok report /\
    SolutionReport.convergenceRate report
    = decreasing_convergence_rate (SolutionReport.convergenceHistory report).
Proof.
  apply (convergenceRate_is_mean_over_decreasing_pairs
           draws_three_steps_then_worse constructor [0; 0; 0; 0]
           params_four_turns 0%nat).
  - reflexivity.
  - lazy. repeat constructor.
Defined.

(** The errors recorded by the run used below. *)
Lemma errors_of_three_steps_then_worse :
  recorded_errors
    (This.convergenceHistory
       (solver_after
          (solveFixedPoint draws_three_steps_then_worse constructor
                           [0; 0; 0; 0] params_four_turns 0%nat)))
  = [Fin (1 # 4)%Q; Fin (1 # 4)%Q; Fin (1 # 4)%Q; Fin (2 # 4)%Q].
Proof. lazy. reflexivity. Qed.

(** C6, the claim as stated fails.  With error rate 1/2 and draws that flip
    positions 0, 1, 2 in the first three cycles and positions 1 to 4 in the
    fourth, the recorded errors are 1/4, 1/4, 1/4, 1/2: from iteration 3 on
    one pair is level and one grows, so the code counts neither and returns
    0, while the mean of the negative log-ratios is [- ln 2 / 2]. *)
Lemma convergenceRate_not_mean_over_all_pairs :
  exists report,
    result_of (solveFixedPoint draws_three_steps_then_worse constructor
                               [0; 0; 0; 0] params_four_turns 0%nat)
    = Ok report /\
    (3 <= List.length (SolutionReport.convergenceHistory report))%nat /\
    SolutionReport.convergenceRate report
    <> claimed_convergence_rate (SolutionReport.convergenceHistory report).
Proof.
  destruct (solveFixedPoint_of_valid draws_three_steps_then_worse constructor
              [0; 0; 0; 0] params_four_turns 0%nat eq_refl)
    as (d' & this1 & c' & Hrun & Hsolve).
  rewrite Hsolve. clear Hsolve.
  vm_compute in Hrun. injection Hrun as <- <- <-.
  eexists. split; [reflexivity |]. split; [simpl; lia |].
  cbn [SolutionReport.convergenceRate SolutionReport.convergenceHistory
       createSolutionReport].
  rewrite calculateConvergenceRate_decreasing.
  unfold decreasing_convergence_rate, claimed_convergence_rate, mean. simpl.
  replace (Q2R (2 # 4) / Q2R (1 # 4))%R with 2%R
    by (unfold Q2R; simpl; field).
  replace (Q2R (1 # 4) / Q2R (1 # 4))%R with 1%R
    by (unfold Q2R; simpl; field).
  rewrite ln_1.
  assert (Hln : (0 < ln 2)%R) by (rewrite <- ln_1; apply ln_increasing; lra).
  lra.
Qed.

(** * Further properties of the block code *)

Lemma list_Z_eqb_refl (a : list Z) : list_Z_eqb a a = true.
Proof.
  unfold list_Z_eqb. destruct (list_eq_dec Z.eq_dec a a); congruence.
Qed.

Lemma list_Z_eqb_neq (a b : list Z) : list_Z_eqb a b = false -> a <> b.
Proof.
  unfold list_Z_eqb. destruct (list_eq_dec Z.eq_dec a b);
    [discriminate | trivial].
Qed.

Lemma option_Z_eqb_neq (a b : option Z) : option_Z_eqb a b = false -> a <> b.
Proof.
  intros H Heq. subst b. destruct a as [x |]; simpl in H;
    [rewrite Z.eqb_refl in H |]; discriminate.
Qed.

Lemma distance_all :
  forallb (fun d1 => forallb (distance_check d1) (words 4)) (words 4) = true.
Proof. vm_compute. reflexivity. Qed.

Lemma linear_all :
  forallb (fun d1 => forallb (linear_check d1) (words 4)) (words 4) = true.
Proof. vm_compute. reflexivity. Qed.

Lemma nearest_all : forallb nearest_check (words 7) = true.
Proof. vm_compute. reflexivity. Qed.

Lemma position_all : forallb position_check (words 7) = true.
Proof. vm_compute. reflexivity. Qed.

Lemma double_error_all :
  forallb (fun d =>
             forallb (fun p => forallb (double_error_check d p) positions)
                     positions)
          (words 4) = true.
Proof. vm_compute. reflexivity. Qed.

(** X1.  [encode] lays a data word [d1 d2 d3 d4] out as
    [p1 p2 d1 p3 d2 d3 d4] with [p1 = d1 xor d2 xor d4],
    [p2 = d1 xor d3 xor d4] and [p3 = d2 xor d3 xor d4], and the result
    passes [validateCodeword]. *)
Theorem encode_layout (d1 d2 d3 d4 : Z) :
  HammingCode.validateDataBits [d1; d2; d3; d4] = true ->
  HammingCode.encode [d1; d2; d3; d4]
  = Ok [ Z.lxor (Z.lxor d1 d2) d4; Z.lxor (Z.lxor d1 d3) d4; d1;
         Z.lxor (Z.lxor d2 d3) d4; d2; d3; d4 ] /\
  HammingCode.validateCodeword
    [ Z.lxor (Z.lxor d1 d2) d4; Z.lxor (Z.lxor d1 d3) d4; d1;
      Z.lxor (Z.lxor d2 d3) d4; d2; d3; d4 ] = true.
Proof.
  intro H. apply validateDataBits_words in H. simpl in H.
  repeat (destruct H as [H | H];
          [injection H as <- <- <- <-; split; reflexivity |]).
  contradiction.
Qed.

Lemma encode_layout_witness :
  HammingCode.encode [1; 0; 1; 1]
  = Ok [ Z.lxor (Z.lxor 1 0) 1; Z.lxor (Z.lxor 1 1) 1; 1;
         Z.lxor (Z.lxor 0 1) 1; 0; 1; 1 ] /\
  HammingCode.validateCodeword
    [ Z.lxor (Z.lxor 1 0) 1; Z.lxor (Z.lxor 1 1) 1; 1;
      Z.lxor (Z.lxor 0 1) 1; 0; 1; 1 ] = true.
Proof. apply (encode_layout 1 0 1 1). reflexivity. Defined.

(** X2.  Two different data words are encoded into codewords that differ in
    at least 3 positions; in particular [encode] is injective. *)
Theorem distinct_words_far_apart (d1 d2 : list Z) :
  HammingCode.validateDataBits d1 = true ->
  HammingCode.validateDataBits d2 = true ->
  d1 <> d2 ->
  exists c1 c2,
    HammingCode.encode d1 = Ok c1 /\
    HammingCode.encode d2 = Ok c2 /\
    3 <= HammingCode.hammingDistance c1 c2 /\
    c1 <> c2.
Proof.
  intros H1 H2 Hneq.
  apply validateDataBits_words in H1. apply validateDataBits_words in H2.
  pose proof (proj1 (forallb_forall _ _) distance_all d1 H1) as H.
  pose proof (proj1 (forallb_forall _ _) H d2 H2) as H'. clear H.
  unfold distance_check in H'. apply orb_true_iff in H' as [H' | H'].
  - apply list_Z_eqb_eq in H'. contradiction.
  - destruct (HammingCode.encode d1) as [c1 |]; [| discriminate].
    destruct (HammingCode.encode d2) as [c2 |]; [| discriminate].
    apply Z.leb_le in H'.
    exists c1, c2. repeat split; trivial.
    intro Heq. subst c2.
    assert (HammingCode.hammingDistance c1 c1 = 0).
    { unfold HammingCode.hammingDistance.
      generalize (seq 0 (List.length c1)). intro l.
      induction l as [| i l IH]; simpl; [reflexivity |].
      now rewrite differs_at_refl. }
    lia.
Qed.

Lemma distinct_words_far_apart_witness :
  exists c1 c2,
    HammingCode.encode [0; 0; 0; 1] = Ok c1 /\
    HammingCode.encode [1; 0; 0; 1] = Ok c2 /\
    3 <= HammingCode.hammingDistance c1 c2 /\
    c1 <> c2.
Proof.
  apply (distinct_words_far_apart [0; 0; 0; 1] [1; 0; 0; 1]);
    [reflexivity | reflexivity | discriminate].
Defined.

(** X3.  The code is linear: the codeword of the position-wise XOR of two
    data words is the position-wise XOR of their codewords. *)
Theorem encode_linear (d1 d2 : list Z) :
  HammingCode.validateDataBits d1 = true ->
  HammingCode.validateDataBits d2 = true ->
  exists c1 c2,
    HammingCode.encode d1 = Ok c1 /\
    HammingCode.encode d2 = Ok c2 /\
    HammingCode.encode (xor_words d1 d2) = Ok (xor_words c1 c2).
Proof.
  intros H1 H2.
  apply validateDataBits_words in H1. apply validateDataBits_words in H2.
  pose proof (proj1 (forallb_forall _ _) linear_all d1 H1) as H.
  pose proof (proj1 (forallb_forall _ _) H d2 H2) as H'. clear H.
  unfold linear_check in H'.
  destruct (HammingCode.encode d1) as [c1 |]; [| discriminate].
  destruct (HammingCode.encode d2) as [c2 |]; [| discriminate].
  destruct (HammingCode.encode (xor_words d1 d2)) as [c |]; [| discriminate].
  apply list_Z_eqb_eq in H'. subst c.
  exists c1, c2. repeat split.
Qed.

Lemma encode_linear_witness :
  exists c1 c2,
    HammingCode.encode [1; 1; 0; 0] = Ok c1 /\
    HammingCode.encode [0; 1; 1; 0] = Ok c2 /\
    HammingCode.encode (xor_words [1; 1; 0; 0] [0; 1; 1; 0])
    = Ok (xor_words c1 c2).
Proof.
  apply (encode_linear [1; 1; 0; 0] [0; 1; 1; 0]); reflexivity.
Defined.

(** X4.  Whatever 7-bit word is received, [decode] returns the data bits of
    a codeword: encoding [dataBits] gives back [correctedCodeword], and that
    codeword is the word received when no error is detected and differs
    from it in exactly one position otherwise. *)
Theorem decode_returns_nearest_codeword (c : list Z) :
  HammingCode.validateCodeword c = true ->
  exists r,
    HammingCode.decode c = Ok r /\
    HammingCode.encode (HammingCode.dataBits r)
    = Ok (HammingCode.correctedCodeword r) /\
    HammingCode.hammingDistance c (HammingCode.correctedCodeword r)
    = (if HammingCode.errorDetected r then 1 else 0).
Proof.
  intro Hc. apply validateCodeword_words in Hc.
  pose proof (proj1 (forallb_forall _ _) nearest_all c Hc) as H.
  unfold nearest_check in H.
  destruct (HammingCode.decode c) as [r |]; [| discriminate].
  apply andb_true_iff in H as [H1 H2].
  destruct (HammingCode.encode (HammingCode.dataBits r)) as [c' |] eqn:Henc;
    [| discriminate].
  apply list_Z_eqb_eq in H1. subst c'. apply Z.eqb_eq in H2.
  exists r. split; [reflexivity |]. split; [exact Henc | exact H2].
Qed.

Lemma decode_returns_nearest_codeword_witness :
  exists r,
    HammingCode.decode [1; 1; 1; 1; 0; 1; 0] = Ok r /\
    HammingCode.encode (HammingCode.dataBits r)
    = Ok (HammingCode.correctedCodeword r) /\
    HammingCode.hammingDistance [1; 1; 1; 1; 0; 1; 0]
                                (HammingCode.correctedCodeword r)
    = (if HammingCode.errorDetected r then 1 else 0).
Proof.
  apply (decode_returns_nearest_codeword [1; 1; 1; 1; 0; 1; 0]). reflexivity.
Defined.

(** X5.  On every 7-bit word the syndrome value lies in 0..7, so the lookup
    in [syndromeToErrorPosition] never misses: [errorPosition] is the
    syndrome value minus one, an error is detected exactly when the syndrome
    value is not 0, and the corrected codeword is the word received with
    that one position flipped. *)
Theorem decode_position_from_syndrome (c : list Z) :
  HammingCode.validateCodeword c = true ->
  exists r,
    HammingCode.decode c = Ok r /\
    0 <= HammingCode.syndromeValue r <= 7 /\
    HammingCode.errorPosition r = Some (HammingCode.syndromeValue r - 1) /\
    HammingCode.errorDetected r = negb (HammingCode.syndromeValue r =? 0) /\
    HammingCode.correctedCodeword r
    = (if HammingCode.errorDetected r
       then flip_at c (HammingCode.syndromeValue r - 1) else c).
Proof.
  intro Hc. apply validateCodeword_words in Hc.
  pose proof (proj1 (forallb_forall _ _) position_all c Hc) as H.
  unfold position_check in H.
  destruct (HammingCode.decode c) as [r |]; [| discriminate].
  repeat (apply andb_true_iff in H as [H ?]).
  exists r. split; [reflexivity |]. split; [lia |]. split; [| split].
  - now apply option_Z_eqb_eq.
  - now apply eqb_prop.
  - now apply list_Z_eqb_eq.
Qed.

Lemma decode_position_from_syndrome_witness :
  exists r,
    HammingCode.decode [0; 1; 1; 0; 0; 1; 0] = Ok r /\
    0 <= HammingCode.syndromeValue r <= 7 /\
    HammingCode.errorPosition r = Some (HammingCode.syndromeValue r - 1) /\
    HammingCode.errorDetected r = negb (HammingCode.syndromeValue r =? 0) /\
    HammingCode.correctedCodeword r
    = (if HammingCode.errorDetected r
       then flip_at [0; 1; 1; 0; 0; 1; 0] (HammingCode.syndromeValue r - 1)
       else [0; 1; 1; 0; 0; 1; 0]).
Proof.
  apply (decode_position_from_syndrome [0; 1; 1; 0; 0; 1; 0]). reflexivity.
Defined.

(** X6.  Two flipped positions are beyond the code: [decode] does detect an
    error, but it flips a third position, ends on a codeword at distance 3
    of the one sent, and returns a data word different from the original. *)
Theorem decode_miscorrects_double_flip (d : list Z) (p q : Z) :
  HammingCode.validateDataBits d = true ->
  0 <= p < 7 -> 0 <= q < 7 -> p <> q ->
  exists c r,
    HammingCode.encode d = Ok c /\
    HammingCode.decode (flip_at (flip_at c p) q) = Ok r /\
    HammingCode.errorDetected r = true /\
    HammingCode.dataBits r <> d /\
    HammingCode.errorPosition r <> Some p /\
    HammingCode.errorPosition r <> Some q /\
    HammingCode.hammingDistance c (HammingCode.correctedCodeword r) = 3.
Proof.
  intros Hd Hp Hq Hpq. apply validateDataBits_words in Hd.
  apply positions_complete in Hp. apply positions_complete in Hq.
  pose proof (proj1 (forallb_forall _ _) double_error_all d Hd) as H.
  pose proof (proj1 (forallb_forall _ _) H p Hp) as H1. clear H.
  pose proof (proj1 (forallb_forall _ _) H1 q Hq) as H. clear H1.
  unfold double_error_check in H. apply orb_true_iff in H as [H | H].
  - apply Z.eqb_eq in H. contradiction.
  - destruct (HammingCode.encode d) as [c |]; [| discriminate].
    destruct (HammingCode.decode (flip_at (flip_at c p) q)) as [r |] eqn:Hdec;
      [| discriminate].
    repeat (apply andb_true_iff in H as [H ?]).
    exists c, r. split; [reflexivity |]. split; [exact Hdec |].
    split; [exact H |]. split; [| split; [| split]].
    + apply list_Z_eqb_neq. now apply negb_true_iff.
    + apply option_Z_eqb_neq. now apply negb_true_iff.
    + apply option_Z_eqb_neq. now apply negb_true_iff.
    + now apply Z.eqb_eq.
Qed.

Lemma decode_miscorrects_double_flip_witness :
  exists c r,
    HammingCode.encode [1; 0; 1; 0] = Ok c /\
    HammingCode.decode (flip_at (flip_at c 1) 5) = Ok r /\
    HammingCode.errorDetected r = true /\
    HammingCode.dataBits r <> [1; 0; 1; 0] /\
    HammingCode.errorPosition r <> Some 1 /\
    HammingCode.errorPosition r <> Some 5 /\
    HammingCode.hammingDistance c (HammingCode.correctedCodeword r) = 3.
Proof.
  apply (decode_miscorrects_double_flip [1; 0; 1; 0] 1 5);
    [reflexivity | lia | lia | discriminate].
Defined.

(** ** Hamming distance *)

Lemma differs_fold_acc (w1 w2 : list Z) (l : list nat) (acc : Z) :
  fold_left (fun distance i =>
               if differs_at w1 w2 i then distance + 1 else distance) l acc
  = acc + fold_left (fun distance i =>
                       if differs_at w1 w2 i then distance + 1 else distance)
                    l 0.
Proof.
  revert acc. induction l as [| i l IH]; intro acc; simpl; [lia |].
  destruct (differs_at w1 w2 i); [| apply IH].
  rewrite (IH (acc + 1)), (IH 1). lia.
Qed.

Lemma differs_fold_shift (a : Z) (w1 w2 : list Z) (l : list nat) (acc : Z) :
  fold_left (fun distance i =>
               if differs_at (a :: w1) w2 i then distance + 1 else distance)
            (map S l) acc
  = fold_left (fun distance i =>
                 if differs_at w1 (tl w2) i then distance + 1 else distance)
              l acc.
Proof.
  revert acc. induction l as [| i l IH]; intro acc; simpl; [reflexivity |].
  rewrite IH. f_equal. unfold differs_at. destruct w2; simpl; [| reflexivity].
  destruct (nth_error w1 i); now destruct i.
Qed.

(** The distance, one position at a time. *)
Lemma hammingDistance_cons (a : Z) (w1 w2 : list Z) :
  HammingCode.hammingDistance (a :: w1) w2
  = (if differs_at (a :: w1) w2 0 then 1 else 0)
    + HammingCode.hammingDistance w1 (tl w2).
Proof.
  unfold HammingCode.hammingDistance. cbn [List.length seq fold_left].
  rewrite <- seq_shift, differs_fold_shift, differs_fold_acc.
  destruct (differs_at (a :: w1) w2 0); reflexivity.
Qed.

Lemma hammingDistance_nil (w2 : list Z) : HammingCode.hammingDistance [] w2 = 0.
Proof. reflexivity. Qed.

Lemma hammingDistance_cons_cons (a b : Z) (w1 w2 : list Z) :
  HammingCode.hammingDistance (a :: w1) (b :: w2)
  = (if a =? b then 0 else 1) + HammingCode.hammingDistance w1 w2.
Proof.
  rewrite hammingDistance_cons. unfold differs_at. simpl.
  now destruct (a =? b).
Qed.

Lemma hammingDistance_bounds (w1 w2 : list Z) :
  0 <= HammingCode.hammingDistance w1 w2 <= Z.of_nat (List.length w1).
Proof.
  revert w2. induction w1 as [| a w1 IH]; intro w2.
  - rewrite hammingDistance_nil. simpl. lia.
  - rewrite hammingDistance_cons. specialize (IH (tl w2)).
    cbn [List.length]. destruct (differs_at (a :: w1) w2 0); lia.
Qed.

Lemma hammingDistance_zero_iff (w1 w2 : list Z) :
  List.length w1 = List.length w2 ->
  HammingCode.hammingDistance w1 w2 = 0 <-> w1 = w2.
Proof.
  revert w2. induction w1 as [| a w1 IH]; intros [| b w2] Hlen;
    simpl in Hlen; try discriminate.
  - split; reflexivity.
  - rewrite hammingDistance_cons_cons.
    pose proof (hammingDistance_bounds w1 w2) as Hb.
    specialize (IH w2 ltac:(lia)).
    destruct (a =? b) eqn:E.
    + apply Z.eqb_eq in E. subst b. split.
      * intro H. f_equal. apply IH. lia.
      * intro H. injection H as ->. rewrite (proj2 IH eq_refl). lia.
    + apply Z.eqb_neq in E. split; [lia |]. intro H. congruence.
Qed.

Lemma hammingDistance_sym (w1 w2 : list Z) :
  List.length w1 = List.length w2 ->
  HammingCode.hammingDistance w1 w2 = HammingCode.hammingDistance w2 w1.
Proof.
  revert w2. induction w1 as [| a w1 IH]; intros [| b w2] Hlen;
    simpl in Hlen; try discriminate; [reflexivity |].
  rewrite !hammingDistance_cons_cons, (IH w2) by lia.
  now rewrite (Z.eqb_sym a b).
Qed.

Lemma hammingDistance_triangle (w1 w2 w3 : list Z) :
  List.length w1 = List.length w2 ->
  List.length w2 = List.length w3 ->
  HammingCode.hammingDistance w1 w3
  <= HammingCode.hammingDistance w1 w2 + HammingCode.hammingDistance w2 w3.
Proof.
  revert w2 w3. induction w1 as [| a w1 IH]; intros [| b w2] [| c w3] H12 H23;
    simpl in H12, H23; try discriminate.
  rewrite !hammingDistance_cons_cons.
  specialize (IH w2 w3 ltac:(lia) ltac:(lia)).
  destruct (Z.eqb_spec a c), (Z.eqb_spec a b), (Z.eqb_spec b c);
    try lia; congruence.
Qed.

(** X7.  On words of the same length [hammingDistance] is a metric: it is 0
    exactly on equal words, symmetric, satisfies the triangle inequality, and
    lies between 0 and the length. *)
Theorem hammingDistance_metric (w1 w2 w3 : list Z) :
  List.length w1 = List.length w2 ->
  List.length w2 = List.length w3 ->
  (HammingCode.hammingDistance w1 w2 = 0 <-> w1 = w2) /\
  HammingCode.hammingDistance w1 w2 = HammingCode.hammingDistance w2 w1 /\
  HammingCode.hammingDistance w1 w3
  <= HammingCode.hammingDistance w1 w2 + HammingCode.hammingDistance w2 w3 /\
  0 <= HammingCode.hammingDistance w1 w2 <= Z.of_nat (List.length w1).
Proof.
  intros H12 H23. split; [| split; [| split]].
  - now apply hammingDistance_zero_iff.
  - now apply hammingDistance_sym.
  - now apply hammingDistance_triangle.
  - apply hammingDistance_bounds.
Qed.

Lemma hammingDistance_metric_witness :
  (HammingCode.hammingDistance [1; 0; 1] [1; 1; 1] = 0
   <-> [1; 0; 1] = [1; 1; 1]) /\
  HammingCode.hammingDistance [1; 0; 1] [1; 1; 1]
  = HammingCode.hammingDistance [1; 1; 1] [1; 0; 1] /\
  HammingCode.hammingDistance [1; 0; 1] [0; 1; 0]
  <= HammingCode.hammingDistance [1; 0; 1] [1; 1; 1]
     + HammingCode.hammingDistance [1; 1; 1] [0; 1; 0] /\
  0 <= HammingCode.hammingDistance [1; 0; 1] [1; 1; 1]
    <= Z.of_nat (List.length [1; 0; 1]).
Proof.
  apply (hammingDistance_metric [1; 0; 1] [1; 1; 1] [0; 1; 0]); reflexivity.
Defined.

Lemma hammingDistance_to_nil (w1 : list Z) :
  HammingCode.hammingDistance w1 [] = Z.of_nat (List.length w1).
Proof.
  induction w1 as [| a w1 IH]; [reflexivity |].
  rewrite hammingDistance_cons. cbn [tl List.length]. rewrite IH.
  unfold differs_at. cbn [nth_error]. lia.
Qed.

(** X8.  On words of different lengths [hammingDistance] follows the first
    word: the positions the second word lacks each count as a difference, and
    the positions the second word has beyond the first are ignored. *)
Theorem hammingDistance_unequal_lengths (w1 w2 : list Z) :
  HammingCode.hammingDistance w1 w2
  = HammingCode.hammingDistance (firstn (List.length w2) w1)
                                (firstn (List.length w1) w2)
    + Z.of_nat (List.length w1 - List.length w2).
Proof.
  revert w2. induction w1 as [| a w1 IH]; intro w2.
  - destruct w2; reflexivity.
  - destruct w2 as [| b w2].
    + rewrite hammingDistance_to_nil. cbn [List.length firstn].
      rewrite hammingDistance_nil, Nat.sub_0_r. lia.
    + cbn [List.length firstn Nat.sub].
      rewrite !hammingDistance_cons_cons, (IH w2). lia.
Qed.

(** ** Noise injection, position by position *)

(** X9.  [injectErrors] makes exactly one draw per position, in order: the
    result has the length of the input, the cursor advances by that length,
    and position [i] is flipped exactly when the draw numbered [cursor + i]
    is below the rate. *)
Theorem injectErrors_per_position
  (Math_random : nat -> Q) (c : list Z) (rate : Q) (cursor : nat) :
  snd (HammingCode.injectErrors Math_random c rate cursor)
  = (cursor + List.length c)%nat /\
  List.length (fst (HammingCode.injectErrors Math_random c rate cursor))
  = List.length c /\
  forall i,
    nth_error (fst (HammingCode.injectErrors Math_random c rate cursor)) i
    = option_map
        (fun b => if Qltb (Math_random (cursor + i)%nat) rate
                  then js_xor b 1 else b)
        (nth_error c i).
Proof.
  unfold HammingCode.injectErrors.
  destruct (injectErrors_from_shape Math_random c rate cursor) as [H1 H2].
  split; [exact H2 |]. split; [exact H1 |].
  clear H1 H2. revert cursor.
  induction c as [| b c IH]; intros cursor i; simpl.
  - now destruct i.
  - specialize (IH (S cursor)).
    destruct (HammingCode.injectErrors_from Math_random c rate (S cursor))
      as [tl' cursor'].
    simpl in *. destruct i as [| i]; simpl.
    + now rewrite Nat.add_0_r.
    + rewrite IH. now rewrite Nat.add_succ_r.
Qed.

(** X10.  [injectErrors] checks nothing about the rate: with draws in [0,1)
    a rate of 0 or below leaves the codeword as it is, and a rate of 1 or
    above complements it. *)
Theorem injectErrors_rate_out_of_range
  (Math_random : nat -> Q) (c : list Z) (rate : Q) (cursor : nat) :
  unit_interval_draws Math_random ->
  HammingCode.validateCodeword c = true ->
  (rate <= 0 \/ 1 <= rate)%Q ->
  fst (HammingCode.injectErrors Math_random c rate cursor)
  = if Qle_bool rate 0 then c else complement c.
Proof.
  intros Hr Hc Hrate. unfold HammingCode.injectErrors.
  destruct (Qle_bool rate 0) eqn:E.
  - apply Qle_bool_iff in E. apply injectErrors_from_no_flip.
    intro n. apply Qle_trans with 0%Q; [exact E | apply (Hr n)].
  - destruct Hrate as [H0 | H1].
    + apply Qle_bool_iff in H0. congruence.
    + rewrite injectErrors_from_all_flip.
      * apply map_xor_complement.
        unfold HammingCode.validateCodeword in Hc.
        now apply andb_true_iff in Hc as [_ Hc].
      * intro n. apply Qlt_le_trans with 1%Q; [apply (Hr n) | exact H1].
Qed.

Lemma injectErrors_rate_out_of_range_witness :
  fst (HammingCode.injectErrors (fun _ => (1 # 2)%Q) [1; 0; 1; 1; 0; 1; 0]
                                (3 # 2) 0%nat)
  = if Qle_bool (3 # 2) 0 then [1; 0; 1; 1; 0; 1; 0]
    else complement [1; 0; 1; 1; 0; 1; 0].
Proof.
  apply (injectErrors_rate_out_of_range (fun _ => (1 # 2)%Q)
                                        [1; 0; 1; 1; 0; 1; 0] (3 # 2) 0%nat).
  - intro n. split; [discriminate | reflexivity].
  - reflexivity.
  - right. discriminate.
Defined.

(** ** The codebook *)

(** X11.  [generateCodebook] returns 16 entries without repeated codewords;
    the inputs listed are exactly the 4-bit data words, and the codeword of
    each entry is the encoding of its input. *)
Theorem generateCodebook_complete :
  exists book,
    HammingCode.generateCodebook = Ok book /\
    List.length book = 16%nat /\
    NoDup (map HammingCode.codeword book) /\
    (forall d, HammingCode.validateDataBits d = true
               <-> In d (map HammingCode.input book)) /\
    (forall e, In e book ->
               HammingCode.encode (HammingCode.input e)
               = Ok (HammingCode.codeword e)).
Proof.
  eexists. split; [vm_compute; reflexivity |].
  split; [reflexivity |]. split; [| split].
  - simpl. repeat (constructor; [simpl; intuition discriminate |]).
    constructor.
  - intro d. split.
    + intro H. apply validateDataBits_words in H. simpl in H. simpl.
      repeat (destruct H as [<- | H]; [auto 20 |]). contradiction.
    + simpl. intro H.
      repeat (destruct H as [<- | H]; [reflexivity |]). contradiction.
  - intros e H. simpl in H.
    repeat (destruct H as [<- | H]; [reflexivity |]). contradiction.
Qed.

(** * Further properties of the solver *)

(** ** The convergence error *)

Lemma calculateConvergenceError_distance (cur prev : list Z) :
  calculateConvergenceError cur (Some prev)
  = Fin (inject_Z (HammingCode.hammingDistance cur prev)
         / inject_Z (Z.of_nat (List.length cur)))%Q.
Proof. reflexivity. Qed.

Lemma Qdiv_nat_bounds (a : Z) (n : nat) :
  0 <= a <= Z.of_nat n ->
  (0 <= inject_Z a / inject_Z (Z.of_nat n) /\
   inject_Z a / inject_Z (Z.of_nat n) <= 1)%Q.
Proof.
  intro H. destruct n as [| n].
  - assert (a = 0) by (simpl in H; lia). subst a. split; discriminate.
  - assert (Hpos : (0 < inject_Z (Z.of_nat (S n)))%Q).
    { rewrite <- (Zlt_Qlt 0). lia. }
    split.
    + apply Qle_shift_div_l; [exact Hpos |]. rewrite Qmult_0_l.
      rewrite <- (Zle_Qle 0). lia.
    + apply Qle_shift_div_r; [exact Hpos |]. rewrite Qmult_1_l.
      rewrite <- Zle_Qle. lia.
Qed.

Lemma Qdiv_nat_zero (a : Z) (n : nat) :
  (inject_Z a / inject_Z (Z.of_nat (S n)) == 0)%Q <-> a = 0.
Proof.
  unfold Qeq, Qdiv, Qmult, Qinv, inject_Z.
  cbn [Qnum Qden Z.of_nat]. simpl. lia.
Qed.

(** X12.  For two states of the same non-zero length the convergence error is
    the Hamming distance divided by the length: a fraction between 0 and 1
    that is 0 exactly when the two states are equal. *)
Theorem calculateConvergenceError_fraction (cur prev : list Z) :
  List.length cur = List.length prev ->
  cur <> [] ->
  exists q,
    calculateConvergenceError cur (Some prev) = Fin q /\
    (q == inject_Z (HammingCode.hammingDistance cur prev)
          / inject_Z (Z.of_nat (List.length cur)))%Q /\
    (0 <= q /\ q <= 1)%Q /\
    ((q == 0)%Q <-> cur = prev).
Proof.
  intros Hlen Hne. rewrite calculateConvergenceError_distance.
  eexists. split; [reflexivity |]. split; [reflexivity |]. split.
  - apply Qdiv_nat_bounds. apply hammingDistance_bounds.
  - destruct cur as [| a cur]; [congruence |]. cbn [List.length].
    rewrite Qdiv_nat_zero. now apply hammingDistance_zero_iff.
Qed.

Lemma calculateConvergenceError_fraction_witness :
  exists q,
    calculateConvergenceError [1; 0; 1; 1] (Some [1; 1; 1; 0]) = Fin q /\
    (q == inject_Z (HammingCode.hammingDistance [1; 0; 1; 1]%Z [1; 1; 1; 0]%Z)
          / inject_Z (Z.of_nat (List.length [1; 0; 1; 1]%Z)))%Q /\
    (0 <= q /\ q <= 1)%Q /\
    ((q == 0)%Q <-> [1; 0; 1; 1] = [1; 1; 1; 0]).
Proof.
  apply (calculateConvergenceError_fraction [1; 0; 1; 1] [1; 1; 1; 0]);
    [reflexivity | discriminate].
Defined.

(** ** The adaptive step *)

Lemma skipn_cons_inv (l : list Z) :
  forall (i : nat) (c : Z) (rest : list Z),
    skipn i l = c :: rest ->
    nth_error l i = Some c /\ skipn (S i) l = rest.
Proof.
  induction l as [| a l IH]; intros i c rest H.
  - destruct i; discriminate.
  - destruct i as [| i].
    + simpl in H. injection H as <- <-. split; reflexivity.
    + simpl in H. apply IH in H. exact H.
Qed.

Section AdaptiveStep.
Variable Math_random : nat -> Q.

Lemma applyAdaptiveStep_from_draws (rest cur prev : list Z) (damping : Q) :
  forall (i cursor : nat),
    Z.of_nat
      (snd (applyAdaptiveStep_from Math_random i rest cur prev damping cursor))
    = Z.of_nat cursor
      + fold_left (fun distance j =>
                     if differs_at cur prev j then distance + 1 else distance)
                  (seq i (List.length rest)) 0.
Proof.
  induction rest as [| c tl IH]; intros i cursor.
  - simpl. lia.
  - cbn [applyAdaptiveStep_from List.length seq fold_left].
    destruct (differs_at cur prev i).
    + specialize (IH (S i) (S cursor)).
      destruct (applyAdaptiveStep_from Math_random (S i) tl cur prev damping
                                       (S cursor)) as [tl' cursor'].
      cbn [snd] in *. rewrite IH, (differs_fold_acc cur prev _ (0 + 1)). lia.
    + specialize (IH (S i) cursor).
      destruct (applyAdaptiveStep_from Math_random (S i) tl cur prev damping
                                       cursor) as [tl' cursor'].
      cbn [snd] in *. exact IH.
Qed.

Lemma applyAdaptiveStep_from_choice (cur prev : list Z) (damping : Q) :
  List.length cur = List.length prev ->
  forall (rest : list Z) (i cursor j : nat),
    skipn i cur = rest ->
    nth_error
      (fst (applyAdaptiveStep_from Math_random i rest cur prev damping cursor))
      j = nth_error cur (i + j) \/
    nth_error
      (fst (applyAdaptiveStep_from Math_random i rest cur prev damping cursor))
      j = nth_error prev (i + j).
Proof.
  intro Hlen. induction rest as [| c tl IH]; intros i cursor j Hskip.
  - simpl. rewrite <- (nth_error_skipn i cur j), Hskip. now left.
  - apply skipn_cons_inv in Hskip as [Hc Htl].
    cbn [applyAdaptiveStep_from].
    destruct (differs_at cur prev i).
    + specialize (IH (S i) (S cursor)).
      destruct (applyAdaptiveStep_from Math_random (S i) tl cur prev damping
                                       (S cursor)) as [tl' cursor'].
      cbn [fst] in *. destruct j as [| j].
      * rewrite Nat.add_0_r. cbn [nth_error].
        destruct (Qltb (Math_random cursor) (1 - damping)).
        -- left. now rewrite Hc.
        -- right. symmetry. apply nth_error_nth'.
           rewrite <- Hlen. apply nth_error_Some. congruence.
      * cbn [nth_error]. rewrite Nat.add_succ_r. apply (IH j Htl).
    + specialize (IH (S i) cursor).
      destruct (applyAdaptiveStep_from Math_random (S i) tl cur prev damping
                                       cursor) as [tl' cursor'].
      cbn [fst] in *. destruct j as [| j].
      * rewrite Nat.add_0_r. cbn [nth_error]. left. now rewrite Hc.
      * cbn [nth_error]. rewrite Nat.add_succ_r. apply (IH j Htl).
Qed.

Lemma applyAdaptiveStep_from_length (cur prev : list Z) (damping : Q) :
  forall (rest : list Z) (i cursor : nat),
    List.length
      (fst (applyAdaptiveStep_from Math_random i rest cur prev damping cursor))
    = List.length rest.
Proof.
  induction rest as [| c tl IH]; intros i cursor; [reflexivity |].
  cbn [applyAdaptiveStep_from].
  destruct (differs_at cur prev i).
  - specialize (IH (S i) (S cursor)).
    destruct (applyAdaptiveStep_from Math_random (S i) tl cur prev damping
                                     (S cursor)) as [tl' cursor'].
    cbn [fst List.length] in *. now rewrite IH.
  - specialize (IH (S i) cursor).
    destruct (applyAdaptiveStep_from Math_random (S i) tl cur prev damping
                                     cursor) as [tl' cursor'].
    cbn [fst List.length] in *. now rewrite IH.
Qed.

Lemma applyAdaptiveStep_from_keep (cur prev : list Z) (damping : Q) :
  (forall n, Qltb (Math_random n) (1 - damping) = true) ->
  forall (rest : list Z) (i cursor : nat),
    fst (applyAdaptiveStep_from Math_random i rest cur prev damping cursor)
    = rest.
Proof.
  intro Hkeep. induction rest as [| c tl IH]; intros i cursor;
    [reflexivity |].
  cbn [applyAdaptiveStep_from].
  destruct (differs_at cur prev i).
  - specialize (IH (S i) (S cursor)).
    destruct (applyAdaptiveStep_from Math_random (S i) tl cur prev damping
                                     (S cursor)) as [tl' cursor'].
    cbn [fst] in *. now rewrite Hkeep, IH.
  - specialize (IH (S i) cursor).
    destruct (applyAdaptiveStep_from Math_random (S i) tl cur prev damping
                                     cursor) as [tl' cursor'].
    cbn [fst] in *. now rewrite IH.
Qed.

Lemma applyAdaptiveStep_from_revert (cur prev : list Z) (damping : Q) :
  List.length cur = List.length prev ->
  (forall n, Qltb (Math_random n) (1 - damping) = false) ->
  forall (rest : list Z) (i cursor : nat),
    skipn i cur = rest ->
    fst (applyAdaptiveStep_from Math_random i rest cur prev damping cursor)
    = skipn i prev.
Proof.
  intros Hlen Hrev. induction rest as [| c tl IH]; intros i cursor Hskip.
  - simpl. symmetry. apply skipn_all2.
    assert (List.length (skipn i cur) = 0%nat) by now rewrite Hskip.
    rewrite length_skipn in H. lia.
  - apply skipn_cons_inv in Hskip as [Hc Htl].
    assert (Hi : (i < List.length prev)%nat).
    { rewrite <- Hlen. apply nth_error_Some. congruence. }
    destruct (nth_error prev i) as [p |] eqn:Hp;
      [| apply nth_error_None in Hp; lia].
    assert (Hprev : skipn i prev = p :: skipn (S i) prev).
    { clear - Hp. revert i Hp. induction prev as [| a l IHl]; intros i Hp.
      - destruct i; discriminate.
      - destruct i as [| i]; simpl in *.
        + now injection Hp as ->.
        + now apply IHl. }
    rewrite Hprev. cbn [applyAdaptiveStep_from].
    destruct (differs_at cur prev i) eqn:Hd.
    + specialize (IH (S i) (S cursor) Htl).
      destruct (applyAdaptiveStep_from Math_random (S i) tl cur prev damping
                                       (S cursor)) as [tl' cursor'].
      cbn [fst] in *. rewrite Hrev, IH. f_equal.
      now apply nth_error_nth.
    + specialize (IH (S i) cursor Htl).
      destruct (applyAdaptiveStep_from Math_random (S i) tl cur prev damping
                                       cursor) as [tl' cursor'].
      cbn [fst] in *. rewrite IH. f_equal.
      unfold differs_at in Hd. rewrite Hc, Hp in Hd.
      apply negb_false_iff, Z.eqb_eq in Hd. exact Hd.
Qed.
End AdaptiveStep.

(** X13.  [applyAdaptiveStep] on two states of the same length returns a
    state of that length in which every position holds either the current
    or the previous value, and it makes exactly one draw for each position
    in which the two states differ. *)
Theorem applyAdaptiveStep_mixes
  (Math_random : nat -> Q) (cur prev : list Z) (config : Config)
  (cursor : nat) :
  List.length cur = List.length prev ->
  List.length (fst (applyAdaptiveStep Math_random cur prev config cursor))
  = List.length cur /\
  Z.of_nat (snd (applyAdaptiveStep Math_random cur prev config cursor))
  = Z.of_nat cursor + HammingCode.hammingDistance cur prev /\
  forall i,
    nth_error (fst (applyAdaptiveStep Math_random cur prev config cursor)) i
    = nth_error cur i \/
    nth_error (fst (applyAdaptiveStep Math_random cur prev config cursor)) i
    = nth_error prev i.
Proof.
  intro Hlen. unfold applyAdaptiveStep. split; [| split].
  - apply applyAdaptiveStep_from_length.
  - apply applyAdaptiveStep_from_draws.
  - intro i.
    apply (applyAdaptiveStep_from_choice Math_random cur prev
             (dampingFactor config) Hlen cur 0 cursor i eq_refl).
Qed.

Lemma applyAdaptiveStep_mixes_witness :
  List.length (fst (applyAdaptiveStep (fun _ => (1 # 4)%Q) [1; 0; 1; 1]
                                      [0; 0; 1; 0] defaultParams 0%nat))
  = List.length [1; 0; 1; 1] /\
  Z.of_nat (snd (applyAdaptiveStep (fun _ => (1 # 4)%Q) [1; 0; 1; 1]
                                   [0; 0; 1; 0] defaultParams 0%nat))
  = Z.of_nat 0 + HammingCode.hammingDistance [1; 0; 1; 1] [0; 0; 1; 0] /\
  forall i,
    nth_error (fst (applyAdaptiveStep (fun _ => (1 # 4)%Q) [1; 0; 1; 1]
                                      [0; 0; 1; 0] defaultParams 0%nat)) i
    = nth_error [1; 0; 1; 1] i \/
    nth_error (fst (applyAdaptiveStep (fun _ => (1 # 4)%Q) [1; 0; 1; 1]
                                      [0; 0; 1; 0] defaultParams 0%nat)) i
    = nth_error [0; 0; 1; 0] i.
Proof.
  apply (applyAdaptiveStep_mixes (fun _ => (1 # 4)%Q) [1; 0; 1; 1]
                                 [0; 0; 1; 0] defaultParams 0%nat).
  reflexivity.
Defined.

(** X14.  With draws in [0,1), a damping factor of 0 or below makes
    [applyAdaptiveStep] return the current state, and a damping factor of 1
    or above makes it return the previous state. *)
Theorem applyAdaptiveStep_extreme_damping
  (Math_random : nat -> Q) (cur prev : list Z) (config : Config)
  (cursor : nat) :
  unit_interval_draws Math_random ->
  List.length cur = List.length prev ->
  (dampingFactor config <= 0 \/ 1 <= dampingFactor config)%Q ->
  fst (applyAdaptiveStep Math_random cur prev config cursor)
  = if Qle_bool (dampingFactor config) 0 then cur else prev.
Proof.
  intros Hr Hlen Hd. unfold applyAdaptiveStep.
  destruct (Qle_bool (dampingFactor config) 0) eqn:E.
  - apply Qle_bool_iff in E. apply applyAdaptiveStep_from_keep.
    intro n. apply Qltb_true.
    apply Qlt_le_trans with 1%Q; [apply (Hr n) |].
    apply Qle_minus_iff.
    setoid_replace (1 - dampingFactor config + - (1))%Q
      with (- dampingFactor config)%Q by ring.
    apply Qle_minus_iff in E. now rewrite Qplus_0_l in E.
  - destruct Hd as [H0 | H1]; [apply Qle_bool_iff in H0; congruence |].
    rewrite (applyAdaptiveStep_from_revert Math_random cur prev
               (dampingFactor config) Hlen) with (i := 0%nat);
      [reflexivity | | reflexivity].
    intro n. apply Qltb_false.
    apply Qle_trans with 0%Q; [| apply (Hr n)].
    apply Qle_minus_iff in H1. apply Qle_minus_iff.
    setoid_replace (0 + - (1 - dampingFactor config))%Q
      with (dampingFactor config + - (1))%Q by ring.
    exact H1.
Qed.

Lemma applyAdaptiveStep_extreme_damping_witness :
  fst (applyAdaptiveStep (fun _ => (1 # 4)%Q) [1; 0; 1; 1] [0; 0; 1; 0]
         {| maxIterations := 10; convergenceTolerance := 1 # 10;
            errorRate := 1 # 20; dampingFactor := 1;
            enableAdaptiveStep := true |} 0%nat)
  = if Qle_bool 1 0 then [1; 0; 1; 1] else [0; 0; 1; 0].
Proof.
  apply (applyAdaptiveStep_extreme_damping (fun _ => (1 # 4)%Q) [1; 0; 1; 1]
           [0; 0; 1; 0]
           {| maxIterations := 10; convergenceTolerance := 1 # 10;
              errorRate := 1 # 20; dampingFactor := 1;
              enableAdaptiveStep := true |} 0%nat).
  - intro n. split; [discriminate | reflexivity].
  - reflexivity.
  - right. discriminate.
Defined.

(** ** The shape of a run *)

Lemma numbered_from_cons (first : Z) (step : IterationRecord.t)
  (steps : list IterationRecord.t) :
  IterationRecord.iteration step = first ->
  numbered_from (first + 1) steps ->
  numbered_from first (step :: steps).
Proof.
  intros Hstep Hrest [| j] s Hj; simpl in Hj.
  - injection Hj as <-. lia.
  - rewrite (Hrest j s Hj). lia.
Qed.

Lemma last_nonempty_default (l : list (Number Q)) (d1 d2 : Number Q) :
  l <> [] -> last l d1 = last l d2.
Proof.
  induction l as [| a l IH]; intro H; [congruence |].
  destruct l as [| b l]; [reflexivity |].
  change (last (a :: b :: l) d1) with (last (b :: l) d1).
  change (last (a :: b :: l) d2) with (last (b :: l) d2).
  apply IH. discriminate.
Qed.

Section RunShape.
Variable Math_random : nat -> Q.

Lemma cycle_of_valid_full (d : list Z) (config : Config) (cursor : nat) :
  HammingCode.validateDataBits d = true ->
  exists ev cursor',
    applySingleEvolutionCycle Math_random d config cursor = (Ok ev, cursor')
    /\ HammingCode.validateDataBits (finalData ev) = true
    /\ HammingCode.encode d = Ok (encodedState ev)
    /\ HammingCode.validateCodeword (transmittedState ev) = true
    /\ HammingCode.decode (transmittedState ev) = Ok (decodingResult ev)
    /\ finalData ev = HammingCode.dataBits (decodingResult ev)
    /\ errorsCorrected ev = HammingCode.errorDetected (decodingResult ev)
    /\ errorPosition ev = HammingCode.errorPosition (decodingResult ev)
    /\ cursor' = (cursor + 7)%nat.
Proof.
  intro Hd. unfold applySingleEvolutionCycle, simulateTemporalTransmission.
  destruct (encode_valid d Hd) as (cw & Henc & Hcw). rewrite Henc.
  pose proof (injectErrors_valid Math_random cw (errorRate config) cursor Hcw)
    as Hnoisy.
  pose proof (injectErrors_from_shape Math_random cw (errorRate config)
                                      cursor) as [_ Hcur].
  unfold HammingCode.injectErrors in *.
  destruct (HammingCode.injectErrors_from Math_random cw (errorRate config)
                                          cursor) as [noisy cursor'].
  simpl in Hnoisy, Hcur.
  destruct (decode_valid noisy Hnoisy) as (r & Hdec & Hr). rewrite Hdec.
  eexists. eexists. split; [reflexivity |]. simpl.
  repeat split; trivial.
  unfold HammingCode.validateCodeword in Hcw.
  apply andb_true_iff in Hcw as [Hlen _]. apply Nat.eqb_eq in Hlen. lia.
Qed.

(** The two ways the loop can be left without an error: by [break], the
    last record being the first within the tolerance, or by the loop
    condition, every turn having been used. *)
Lemma iterate_shape (config : Config) (remaining : nat) :
  forall (this : This.t) (d : list Z) (cursor : nat)
         (d' : list Z) (this' : This.t) (cursor' : nat),
    This.isConverged this = false ->
    iterate Math_random remaining config this d cursor
    = (Ok d', this', cursor') ->
    (This.isConverged this' = true /\
     exists before last,
       This.convergenceHistory this'
       = This.convergenceHistory this ++ before ++ [last] /\
       (List.length before < remaining)%nat /\
       Forall (misses_tolerance (convergenceTolerance config)) before /\
       meets_tolerance (convergenceTolerance config) last /\
       IterationRecord.state last = d' /\
       This.convergenceError this' = IterationRecord.convergenceError last /\
       This.currentIteration this'
       = This.currentIteration this + Z.of_nat (List.length before) /\
       numbered_from (This.currentIteration this) (before ++ [last]))
    \/
    (This.isConverged this' = false /\
     exists steps,
       This.convergenceHistory this'
       = This.convergenceHistory this ++ steps /\
       List.length steps = remaining /\
       Forall (misses_tolerance (convergenceTolerance config)) steps /\
       This.convergenceError this'
       = last (map IterationRecord.convergenceError steps)
              (This.convergenceError this) /\
       This.currentIteration this'
       = This.currentIteration this + Z.of_nat remaining /\
       numbered_from (This.currentIteration this) steps).
Proof.
  induction remaining as [| n IH];
    intros this d cursor d' this' cursor' Hconv Hrun.
  - simpl in Hrun. injection Hrun as <- <- <-. right.
    split; [exact Hconv |]. exists []. rewrite app_nil_r.
    repeat split; try lia; try solve [constructor].
    intros j step Hj. destruct j; discriminate.
  - rewrite iterate_S in Hrun.
    destruct (applySingleEvolutionCycle Math_random d config cursor)
      as [[ev | msg] c1]; [| discriminate].
    cbv zeta in Hrun.
    set (err := calculateConvergenceError (finalData ev) (Some d)) in *.
    set (rec :=
           {| IterationRecord.iteration := This.currentIteration this;
              IterationRecord.state := finalData ev;
              IterationRecord.convergenceError := err;
              IterationRecord.errorsCorrected := errorsCorrected ev;
              IterationRecord.errorPosition := errorPosition ev;
              IterationRecord.encodedState := encodedState ev;
              IterationRecord.transmittedState := transmittedState ev |}).
    destruct (Number_leb err (convergenceTolerance config)) eqn:Hleb.
    + injection Hrun as <- <- <-. left. split; [reflexivity |].
      exists [], rec. simpl.
      repeat split; try lia; try solve [constructor].
      * exact Hleb.
      * intros j step Hj. destruct j as [| j]; simpl in Hj.
        -- injection Hj as <-. simpl. lia.
        -- destruct j; discriminate.
    + destruct (if enableAdaptiveStep config
                then applyAdaptiveStep Math_random (finalData ev) d config c1
                else (finalData ev, c1)) as [d2 c2].
      apply IH in Hrun; [| exact Hconv].
      cbn [incr_currentIteration recordIterationStep set_convergenceError
           This.convergenceHistory This.currentIteration
           This.convergenceError This.isConverged] in Hrun.
      fold rec in Hrun.
      destruct Hrun as [[Hc (before & lst & Hh & Hlen & Hmiss & Hmeet & Hst
                             & He & Hcur & Hnum)]
                       | [Hc (steps & Hh & Hlen & Hmiss & He & Hcur & Hnum)]].
      * left. split; [exact Hc |]. exists (rec :: before), lst.
        rewrite Hh, <- app_assoc. simpl.
        repeat split; trivial; try lia.
        -- constructor; [exact Hleb | exact Hmiss].
        -- apply numbered_from_cons; [reflexivity | exact Hnum].
      * right. split; [exact Hc |]. exists (rec :: steps).
        rewrite Hh, <- app_assoc. simpl.
        repeat split; trivial; try lia.
        -- constructor; [exact Hleb | exact Hmiss].
        -- rewrite He. destruct steps as [| t steps]; [reflexivity |].
           apply last_nonempty_default. discriminate.
        -- apply numbered_from_cons; [reflexivity | exact Hnum].
Qed.

(** Every record the loop adds describes the cycle it was taken from. *)
Lemma iterate_records (config : Config) (remaining : nat) :
  forall (this : This.t) (d : list Z) (cursor : nat),
    HammingCode.validateDataBits d = true ->
    Forall record_consistent (This.convergenceHistory this) ->
    exists d' this' cursor',
      iterate Math_random remaining config this d cursor
      = (Ok d', this', cursor') /\
      HammingCode.validateDataBits d' = true /\
      Forall record_consistent (This.convergenceHistory this').
Proof.
  induction remaining as [| n IH]; intros this d cursor Hd Hall.
  - simpl. now exists d, this, cursor.
  - rewrite iterate_S.
    destruct (cycle_of_valid_full d config cursor Hd)
      as (ev & c1 & Hev & Hfd & Henc & Htr & Hdec & Hdata & Hdet & Hpos & _).
    rewrite Hev. cbv zeta.
    assert (Hrec : Forall record_consistent
                     (This.convergenceHistory this ++
                      [ {| IterationRecord.iteration :=
                             This.currentIteration this;
                           IterationRecord.state := finalData ev;
                           IterationRecord.convergenceError :=
                             calculateConvergenceError (finalData ev) (Some d);
                           IterationRecord.errorsCorrected :=
                             errorsCorrected ev;
                           IterationRecord.errorPosition := errorPosition ev;
                           IterationRecord.encodedState := encodedState ev;
                           IterationRecord.transmittedState :=
                             transmittedState ev |} ])).
    { apply Forall_app. split; [exact Hall |]. constructor; [| constructor].
      exists d, (decodingResult ev). simpl. repeat split; trivial. }
    destruct (Number_leb _ _).
    + eexists. eexists. eexists. split; [reflexivity |].
      split; [exact Hfd | exact Hrec].
    + destruct (enableAdaptiveStep config).
      * pose proof (applyAdaptiveStep_valid Math_random (finalData ev) d
                      config c1 Hfd Hd) as Hadapt.
        destruct (applyAdaptiveStep Math_random (finalData ev) d config c1)
          as [d2 c2].
        simpl in Hadapt. apply IH; [exact Hadapt | exact Hrec].
      * apply IH; [exact Hfd | exact Hrec].
Qed.
End RunShape.

(** X15.  On a 4-bit data word [solveFixedPoint] returns a report whose final
    state is a 4-bit word and whose every record is consistent: its encoded
    state is the encoding of a 4-bit word, its transmitted state is a 7-bit
    word, and its state, error flag, error position and convergence error are
    those obtained by decoding the transmitted state. *)
Theorem solveFixedPoint_records_consistent
  (Math_random : nat -> Q) (this : This.t) (d : list Z) (params : Params.t)
  (cursor : nat) :
  HammingCode.validateDataBits d = true ->
  exists report,
    result_of (solveFixedPoint Math_random this d params cursor) = Ok report /\
    HammingCode.validateDataBits (SolutionReport.finalState report) = true /\
    Forall record_consistent (SolutionReport.convergenceHistory report).
Proof.
  intro Hd. unfold solveFixedPoint.
  destruct (iterate_records Math_random (merge defaultParams params)
              (Z.to_nat (maxIterations (merge defaultParams params)))
              (resetIterationState this) d cursor Hd (Forall_nil _))
    as (d' & this' & c' & Hrun & Hd' & Hall).
  rewrite Hrun. eexists. split; [reflexivity |]. split; assumption.
Qed.

Lemma solveFixedPoint_records_consistent_witness :
  exists report,
    result_of (solveFixedPoint draws_three_steps_then_worse constructor
                               [0; 0; 0; 0] params_four_turns 0%nat)
    = Ok report /\
    HammingCode.validateDataBits (SolutionReport.finalState report) = true /\
    Forall record_consistent (SolutionReport.convergenceHistory report).
Proof.
  apply (solveFixedPoint_records_consistent draws_three_steps_then_worse
           constructor [0; 0; 0; 0] params_four_turns 0%nat).
  reflexivity.
Defined.

(** X16.  On a 4-bit data word the history never has more records than
    [maxIterations], its records are numbered 0, 1, 2, ... in order, and
    [iterations] is the number of records when the run converged and one
    more than that when it did not. *)
Theorem solveFixedPoint_history_shape
  (Math_random : nat -> Q) (this : This.t) (d : list Z) (params : Params.t)
  (cursor : nat) :
  HammingCode.validateDataBits d = true ->
  exists report,
    result_of (solveFixedPoint Math_random this d params cursor) = Ok report /\
    (List.length (SolutionReport.convergenceHistory report)
     <= Z.to_nat (maxIterations (merge defaultParams params)))%nat /\
    numbered_from 0 (SolutionReport.convergenceHistory report) /\
    SolutionReport.iterations report
    = Z.of_nat (List.length (SolutionReport.convergenceHistory report))
      + (if SolutionReport.converged report then 0 else 1).
Proof.
  intro Hd.
  destruct (solveFixedPoint_of_valid Math_random this d params cursor Hd)
    as (d' & this1 & c' & Hrun & Hsolve).
  rewrite Hsolve. eexists. split; [reflexivity |].
  apply iterate_shape in Hrun; [| reflexivity].
  cbn [SolutionReport.convergenceHistory createSolutionReport
       SolutionReport.iterations SolutionReport.converged updateStatistics
       This.convergenceHistory This.currentIteration This.isConverged].
  destruct Hrun as [[Hc (before & lst & Hh & Hlen & _ & _ & _ & _ & Hcur & Hnum)]
                   | [Hc (steps & Hh & Hlen & _ & _ & Hcur & Hnum)]];
    rewrite Hh, Hc, Hcur; simpl in *.
  - rewrite length_app. simpl. repeat split; [lia | exact Hnum | lia].
  - repeat split; [lia | exact Hnum | lia].
Qed.

Lemma solveFixedPoint_history_shape_witness :
  exists report,
    result_of (solveFixedPoint (fun _ => (1 # 2)%Q) constructor [1; 0; 1; 1]
                               params_noiseless 0%nat) = Ok report /\
    (List.length (SolutionReport.convergenceHistory report)
     <= Z.to_nat (maxIterations (merge defaultParams params_noiseless)))%nat /\
    numbered_from 0 (SolutionReport.convergenceHistory report) /\
    SolutionReport.iterations report
    = Z.of_nat (List.length (SolutionReport.convergenceHistory report))
      + (if SolutionReport.converged report then 0 else 1).
Proof.
  apply (solveFixedPoint_history_shape (fun _ => (1 # 2)%Q) constructor
                                       [1; 0; 1; 1] params_noiseless 0%nat).
  reflexivity.
Defined.

(** X17.  When a run on a 4-bit data word converges, the last record of the
    history is the only one within the tolerance, and the report's final
    state and final error are the state and the convergence error of that
    record. *)
Theorem converged_run_ends_on_last_record
  (Math_random : nat -> Q) (this : This.t) (d : list Z) (params : Params.t)
  (cursor : nat) :
  HammingCode.validateDataBits d = true ->
  This.isConverged
    (solver_after (solveFixedPoint Math_random this d params cursor)) = true ->
  exists report before last,
    result_of (solveFixedPoint Math_random this d params cursor) = Ok report /\
    SolutionReport.converged report = true /\
    SolutionReport.convergenceHistory report = before ++ [last] /\
    Forall (misses_tolerance
              (convergenceTolerance (merge defaultParams params))) before /\
    meets_tolerance (convergenceTolerance (merge defaultParams params)) last /\
    SolutionReport.finalState report = IterationRecord.state last /\
    SolutionReport.finalError report = IterationRecord.convergenceError last.
Proof.
  intro Hd.
  destruct (solveFixedPoint_of_valid Math_random this d params cursor Hd)
    as (d' & this1 & c' & Hrun & Hsolve).
  rewrite Hsolve. unfold solver_after, result_of. cbn [fst snd].
  cbn [updateStatistics This.isConverged]. intro Hconv.
  apply iterate_shape in Hrun; [| reflexivity].
  destruct Hrun as [[_ (before & lst & Hh & _ & Hmiss & Hmeet & Hst & He & _)]
                   | [Hc _]]; [| congruence].
  eexists. exists before, lst. split; [reflexivity |].
  cbn [SolutionReport.convergenceHistory createSolutionReport
       SolutionReport.finalState SolutionReport.finalError
       SolutionReport.converged updateStatistics
       This.convergenceHistory This.convergenceError This.isConverged].
  simpl in Hh. repeat split; trivial. now symmetry.
Qed.

Lemma converged_run_ends_on_last_record_witness :
  exists report before last,
    result_of (solveFixedPoint (fun _ => (1 # 2)%Q) constructor [1; 0; 1; 1]
                               params_noiseless 0%nat) = Ok report /\
    SolutionReport.converged report = true /\
    SolutionReport.convergenceHistory report = before ++ [last] /\
    Forall (misses_tolerance
              (convergenceTolerance (merge defaultParams params_noiseless)))
           before /\
    meets_tolerance
      (convergenceTolerance (merge defaultParams params_noiseless)) last /\
    SolutionReport.finalState report = IterationRecord.state last /\
    SolutionReport.finalError report = IterationRecord.convergenceError last.
Proof.
  apply (converged_run_ends_on_last_record (fun _ => (1 # 2)%Q) constructor
                                           [1; 0; 1; 1] params_noiseless 0%nat).
  - reflexivity.
  - lazy. reflexivity.
Defined.

(** ** Rejected input and degenerate configurations *)

(** X18.  A data word that [validateDataBits] rejects makes
    [solveFixedPoint] throw the error of [encode] as soon as one iteration is
    allowed; no draw is made, the statistics are left alone, but the per-run
    fields of the solver have already been reset. *)
Theorem solveFixedPoint_rejects_invalid_data
  (Math_random : nat -> Q) (this : This.t) (d : list Z) (params : Params.t)
  (cursor : nat) :
  HammingCode.validateDataBits d = false ->
  1 <= maxIterations (merge defaultParams params) ->
  solveFixedPoint Math_random this d params cursor
  = (Throw "Input must be array of exactly 4 bits (0 or 1)",
     resetIterationState this, cursor).
Proof.
  intros Hd Hmax. unfold solveFixedPoint.
  destruct (Z.to_nat (maxIterations (merge defaultParams params)))
    as [| n] eqn:Hn; [lia |].
  rewrite iterate_S. unfold applySingleEvolutionCycle, HammingCode.encode.
  rewrite Hd. reflexivity.
Qed.

Lemma solveFixedPoint_rejects_invalid_data_witness :
  solveFixedPoint (fun _ => (1 # 2)%Q) constructor [1; 0; 2] Params.empty 0%nat
  = (Throw "Input must be array of exactly 4 bits (0 or 1)",
     resetIterationState constructor, 0%nat).
Proof.
  apply (solveFixedPoint_rejects_invalid_data (fun _ => (1 # 2)%Q) constructor
                                              [1; 0; 2] Params.empty 0%nat).
  - reflexivity.
  - discriminate.
Defined.

(** X19.  With [maxIterations] 0 or negative the loop body never runs:
    whatever the input is, even one that [validateDataBits] rejects, the
    call returns it unchanged as final state, with [converged] false,
    [iterations] 1, an empty history, final error [Infinity] and an average
    of errors per iteration that is [NaN]; the run is counted. *)
Theorem solveFixedPoint_without_iterations
  (Math_random : nat -> Q) (this : This.t) (d : list Z) (params : Params.t)
  (cursor : nat) :
  maxIterations (merge defaultParams params) <= 0 ->
  exists report,
    solveFixedPoint Math_random this d params cursor
    = (Ok report, updateStatistics (resetIterationState this), cursor) /\
    SolutionReport.finalState report = d /\
    SolutionReport.converged report = false /\
    SolutionReport.iterations report = 1 /\
    SolutionReport.convergenceHistory report = [] /\
    SolutionReport.finalError report = Infinity /\
    ErrorCorrectionStats.averageErrorsPerIteration
      (SolutionReport.errorCorrectionStats report) = None /\
    Statistics.totalRuns
      (This.statistics (updateStatistics (resetIterationState this)))
    = Statistics.totalRuns (This.statistics this) + 1.
Proof.
  intro Hmax. unfold solveFixedPoint.
  replace (Z.to_nat (maxIterations (merge defaultParams params))) with 0%nat
    by lia.
  eexists. split; [reflexivity |]. repeat split.
Qed.

Lemma solveFixedPoint_without_iterations_witness :
  exists report,
    solveFixedPoint (fun _ => (1 # 2)%Q) constructor [7; 7]
                    params_negative_maxIterations 0%nat
    = (Ok report, updateStatistics (resetIterationState constructor), 0%nat) /\
    SolutionReport.finalState report = [7; 7] /\
    SolutionReport.converged report = false /\
    SolutionReport.iterations report = 1 /\
    SolutionReport.convergenceHistory report = [] /\
    SolutionReport.finalError report = Infinity /\
    ErrorCorrectionStats.averageErrorsPerIteration
      (SolutionReport.errorCorrectionStats report) = None /\
    Statistics.totalRuns
      (This.statistics (updateStatistics (resetIterationState constructor)))
    = Statistics.totalRuns (This.statistics constructor) + 1.
Proof.
  apply (solveFixedPoint_without_iterations (fun _ => (1 # 2)%Q) constructor
           [7; 7] params_negative_maxIterations 0%nat).
  discriminate.
Defined.

Lemma convergence_error_nonneg (cur prev : list Z) (tolerance : Q) :
  (tolerance < 0)%Q ->
  Number_leb (calculateConvergenceError cur (Some prev)) tolerance = false.
Proof.
  intro Htol. rewrite calculateConvergenceError_distance. unfold Number_leb.
  destruct (Qle_bool _ tolerance) eqn:E; [| reflexivity].
  apply Qle_bool_iff in E.
  destruct (Qdiv_nat_bounds (HammingCode.hammingDistance cur prev)
              (List.length cur) (hammingDistance_bounds cur prev)) as [H0 _].
  exfalso. apply (Qlt_not_le _ _ Htol). now apply Qle_trans with (2 := E).
Qed.

Lemma convergence_error_at_most_one (cur prev : list Z) (tolerance : Q) :
  (1 <= tolerance)%Q ->
  Number_leb (calculateConvergenceError cur (Some prev)) tolerance = true.
Proof.
  intro Htol. rewrite calculateConvergenceError_distance. unfold Number_leb.
  apply Qle_bool_iff.
  destruct (Qdiv_nat_bounds (HammingCode.hammingDistance cur prev)
              (List.length cur) (hammingDistance_bounds cur prev)) as [_ H1].
  now apply Qle_trans with (1 := H1).
Qed.

(** X20.  With a tolerance of 1 or more every first cycle is within the
    tolerance: on a 4-bit data word and with at least one iteration allowed
    the run converges after exactly one cycle, whatever the noise does. *)
Theorem loose_tolerance_converges_at_once
  (Math_random : nat -> Q) (this : This.t) (d : list Z) (params : Params.t)
  (cursor : nat) :
  HammingCode.validateDataBits d = true ->
  1 <= maxIterations (merge defaultParams params) ->
  (1 <= convergenceTolerance (merge defaultParams params))%Q ->
  exists report,
    result_of (solveFixedPoint Math_random this d params cursor) = Ok report /\
    SolutionReport.converged report = true /\
    SolutionReport.iterations report = 1 /\
    List.length (SolutionReport.convergenceHistory report) = 1%nat.
Proof.
  intros Hd Hmax Htol. unfold solveFixedPoint.
  destruct (Z.to_nat (maxIterations (merge defaultParams params)))
    as [| n] eqn:Hn; [lia |].
  rewrite iterate_S.
  destruct (cycle_of_valid Math_random d (merge defaultParams params) cursor Hd)
    as (ev & c1 & Hev & _).
  rewrite Hev. cbv zeta. rewrite (convergence_error_at_most_one _ _ _ Htol).
  eexists. split; [reflexivity |]. repeat split.
Qed.

Lemma loose_tolerance_converges_at_once_witness :
  exists report,
    result_of (solveFixedPoint (fun _ => 0%Q) constructor [1; 0; 1; 1]
                               params_loose_tolerance 0%nat) = Ok report /\
    SolutionReport.converged report = true /\
    SolutionReport.iterations report = 1 /\
    List.length (SolutionReport.convergenceHistory report) = 1%nat.
Proof.
  apply (loose_tolerance_converges_at_once (fun _ => 0%Q) constructor
           [1; 0; 1; 1] params_loose_tolerance 0%nat).
  - reflexivity.
  - discriminate.
  - discriminate.
Defined.

Section NeverConverges.
Variable Math_random : nat -> Q.

Lemma iterate_negative_tolerance (config : Config) (remaining : nat) :
  (convergenceTolerance config < 0)%Q ->
  forall (this : This.t) (d : list Z) (cursor : nat)
         (d' : list Z) (this' : This.t) (cursor' : nat),
    iterate Math_random remaining config this d cursor
    = (Ok d', this', cursor') ->
    This.isConverged this' = This.isConverged this /\
    List.length (This.convergenceHistory this')
    = (List.length (This.convergenceHistory this) + remaining)%nat /\
    This.currentIteration this'
    = This.currentIteration this + Z.of_nat remaining.
Proof.
  intro Htol. induction remaining as [| n IH];
    intros this d cursor d' this' cursor' Hrun.
  - simpl in Hrun. injection Hrun as <- <- <-. repeat split; lia.
  - rewrite iterate_S in Hrun.
    destruct (applySingleEvolutionCycle Math_random d config cursor)
      as [[ev | msg] c1]; [| discriminate].
    cbv zeta in Hrun.
    rewrite (convergence_error_nonneg _ _ _ Htol) in Hrun.
    destruct (if enableAdaptiveStep config
              then applyAdaptiveStep Math_random (finalData ev) d config c1
              else (finalData ev, c1)) as [d2 c2].
    destruct (IH _ _ _ _ _ _ Hrun) as (H1 & H2 & H3).
    simpl in H1, H2, H3. rewrite length_app in H2. simpl in H2.
    repeat split; [exact H1 | lia | lia].
Qed.
End NeverConverges.

(** X21.  With a negative tolerance no cycle can be within the tolerance:
    on a 4-bit data word the run uses all its iterations and reports
    [converged] false, even without any noise. *)
Theorem negative_tolerance_never_converges
  (Math_random : nat -> Q) (this : This.t) (d : list Z) (params : Params.t)
  (cursor : nat) :
  HammingCode.validateDataBits d = true ->
  0 <= maxIterations (merge defaultParams params) ->
  (convergenceTolerance (merge defaultParams params) < 0)%Q ->
  exists report,
    result_of (solveFixedPoint Math_random this d params cursor) = Ok report /\
    SolutionReport.converged report = false /\
    Z.of_nat (List.length (SolutionReport.convergenceHistory report))
    = maxIterations (merge defaultParams params) /\
    SolutionReport.iterations report
    = maxIterations (merge defaultParams params) + 1.
Proof.
  intros Hd Hmax Htol.
  destruct (solveFixedPoint_of_valid Math_random this d params cursor Hd)
    as (d' & this1 & c' & Hrun & Hsolve).
  rewrite Hsolve.
  destruct (iterate_negative_tolerance Math_random _ _ Htol _ _ _ _ _ _ Hrun)
    as (H1 & H2 & H3).
  simpl in H1, H2, H3, Hmax.
  eexists. split; [reflexivity |]. simpl. repeat split; [exact H1 | lia | lia].
Qed.

Lemma negative_tolerance_never_converges_witness :
  exists report,
    result_of (solveFixedPoint (fun _ => (1 # 2)%Q) constructor [1; 0; 1; 1]
                               params_negative_tolerance 0%nat) = Ok report /\
    SolutionReport.converged report = false /\
    Z.of_nat (List.length (SolutionReport.convergenceHistory report))
    = maxIterations (merge defaultParams params_negative_tolerance) /\
    SolutionReport.iterations report
    = maxIterations (merge defaultParams params_negative_tolerance) + 1.
Proof.
  apply (negative_tolerance_never_converges (fun _ => (1 # 2)%Q) constructor
           [1; 0; 1; 1] params_negative_tolerance 0%nat).
  - reflexivity.
  - discriminate.
  - reflexivity.
Defined.

(** ** Saturated noise *)

Lemma complement_all : forallb complement_check (words 4) = true.
Proof. vm_compute. reflexivity. Qed.

Lemma complement_facts (d : list Z) :
  HammingCode.validateDataBits d = true ->
  exists c r,
    HammingCode.encode d = Ok c /\
    HammingCode.decode (complement c) = Ok r /\
    HammingCode.dataBits r = complement d /\
    HammingCode.hammingDistance (complement d) d = 4 /\
    complement (complement d) = d /\
    HammingCode.validateDataBits (complement d) = true.
Proof.
  intro Hd. apply validateDataBits_words in Hd.
  pose proof (proj1 (forallb_forall _ _) complement_all d Hd) as H.
  unfold complement_check in H.
  destruct (HammingCode.encode d) as [c |]; [| discriminate].
  destruct (HammingCode.decode (complement c)) as [r |] eqn:Hdec;
    [| discriminate].
  repeat (apply andb_true_iff in H as [H ?]).
  exists c, r. split; [reflexivity |]. split; [exact Hdec |].
  repeat split; trivial.
  - now apply list_Z_eqb_eq.
  - now apply Z.eqb_eq.
  - now apply list_Z_eqb_eq.
Qed.

Section SaturatedNoise.
Variable Math_random : nat -> Q.

Lemma cycle_all_flipped (d : list Z) (config : Config) (cursor : nat) :
  HammingCode.validateDataBits d = true ->
  (forall n, (Math_random n < errorRate config)%Q) ->
  exists ev cursor',
    applySingleEvolutionCycle Math_random d config cursor = (Ok ev, cursor')
    /\ finalData ev = complement d.
Proof.
  intros Hd Hrate.
  unfold applySingleEvolutionCycle, simulateTemporalTransmission.
  destruct (complement_facts d Hd) as (cw & r & Henc & Hdec & Hdata & _).
  destruct (encode_valid d Hd) as (cw' & Henc' & Hcw).
  rewrite Henc in Henc'. injection Henc' as <-.
  rewrite Henc.
  pose proof (injectErrors_from_all_flip Math_random cw (errorRate config)
                                         cursor Hrate) as Hflip.
  unfold HammingCode.injectErrors.
  destruct (HammingCode.injectErrors_from Math_random cw (errorRate config)
                                          cursor) as [noisy cursor'].
  simpl in Hflip. subst noisy.
  rewrite map_xor_complement
    by (unfold HammingCode.validateCodeword in Hcw;
        now apply andb_true_iff in Hcw as [_ Hcw]).
  rewrite Hdec. eexists. eexists. split; [reflexivity | exact Hdata].
Qed.

Lemma iterate_all_flipped (config : Config) (remaining : nat) :
  enableAdaptiveStep config = false ->
  (convergenceTolerance config < 1)%Q ->
  (forall n, (Math_random n < errorRate config)%Q) ->
  forall (this : This.t) (d : list Z) (cursor : nat),
    HammingCode.validateDataBits d = true ->
    exists this' cursor',
      iterate Math_random remaining config this d cursor
      = (Ok (flipped_times remaining d), this', cursor') /\
      This.isConverged this' = This.isConverged this /\
      This.currentIteration this'
      = This.currentIteration this + Z.of_nat remaining.
Proof.
  intros Hadapt Htol Hrate.
  induction remaining as [| n IH]; intros this d cursor Hd.
  - exists this, cursor. repeat split. simpl. lia.
  - rewrite iterate_S.
    destruct (cycle_all_flipped d config cursor Hd Hrate)
      as (ev & c1 & Hev & Hfd).
    rewrite Hev. cbv zeta. rewrite Hfd, Hadapt.
    destruct (complement_facts d Hd) as (_ & _ & _ & _ & _ & Hdist & Hinv & Hval).
    assert (Hmiss : Number_leb
                      (calculateConvergenceError (complement d) (Some d))
                      (convergenceTolerance config) = false).
    { rewrite calculateConvergenceError_distance, Hdist.
      unfold HammingCode.validateDataBits in Hval.
      apply andb_true_iff in Hval as [Hlen _]. apply Nat.eqb_eq in Hlen.
      rewrite Hlen. unfold Number_leb.
      destruct (Qle_bool _ (convergenceTolerance config)) eqn:E;
        [| reflexivity].
      apply Qle_bool_iff in E. exfalso.
      apply (Qlt_not_le _ _ Htol).
      apply Qle_trans with (2 := E). discriminate. }
    rewrite Hmiss.
    destruct (IH (incr_currentIteration
                    (recordIterationStep
                       (set_convergenceError this
                          (calculateConvergenceError (complement d) (Some d)))
                       (complement d)
                       (calculateConvergenceError (complement d) (Some d))
                       ev))
                 (complement d) c1 Hval) as (this' & c' & Hrun & Hc & Hcur).
    exists this', c'. rewrite Hrun. simpl in Hc, Hcur.
    split; [| split; [exact Hc | lia]].
    f_equal. f_equal. f_equal. unfold flipped_times.
    rewrite Nat.even_succ, <- Nat.negb_even.
    destruct (Nat.even n); simpl; [reflexivity | exact Hinv].
Qed.
End SaturatedNoise.

(** X22.  With draws in [0,1), an error rate of 1 or more, the adaptive step
    switched off and a tolerance below 1, every cycle turns the state into
    its complement: the run never converges, uses all its iterations, and
    ends on the input after an even number of iterations and on its
    complement after an odd number. *)
Theorem saturated_noise_alternates
  (Math_random : nat -> Q) (this : This.t) (d : list Z) (params : Params.t)
  (cursor : nat) :
  unit_interval_draws Math_random ->
  HammingCode.validateDataBits d = true ->
  (1 <= errorRate (merge defaultParams params))%Q ->
  enableAdaptiveStep (merge defaultParams params) = false ->
  (convergenceTolerance (merge defaultParams params) < 1)%Q ->
  0 <= maxIterations (merge defaultParams params) ->
  exists report,
    result_of (solveFixedPoint Math_random this d params cursor) = Ok report /\
    SolutionReport.converged report = false /\
    SolutionReport.finalState report
    = flipped_times (Z.to_nat (maxIterations (merge defaultParams params))) d /\
    SolutionReport.iterations report
    = maxIterations (merge defaultParams params) + 1.
Proof.
  intros Hdraws Hd Hrate Hadapt Htol Hmax. unfold solveFixedPoint.
  assert (Hlt : forall n,
             (Math_random n < errorRate (merge defaultParams params))%Q).
  { intro n. apply Qlt_le_trans with 1%Q; [apply (Hdraws n) | exact Hrate]. }
  destruct (iterate_all_flipped Math_random (merge defaultParams params)
              (Z.to_nat (maxIterations (merge defaultParams params)))
              Hadapt Htol Hlt (resetIterationState this) d cursor Hd)
    as (this' & c' & Hrun & Hc & Hcur).
  rewrite Hrun. eexists. split; [reflexivity |].
  cbn [SolutionReport.converged SolutionReport.finalState
       SolutionReport.iterations createSolutionReport updateStatistics
       This.isConverged This.currentIteration].
  rewrite Hc, Hcur. simpl in Hmax |- *. repeat split. lia.
Qed.

Lemma saturated_noise_alternates_witness :
  exists report,
    result_of (solveFixedPoint (fun _ => (1 # 2)%Q) constructor [0; 1; 1; 0]
                               params_all_flipped 0%nat) = Ok report /\
    SolutionReport.converged report = false /\
    SolutionReport.finalState report
    = flipped_times
        (Z.to_nat (maxIterations (merge defaultParams params_all_flipped)))
        [0; 1; 1; 0] /\
    SolutionReport.iterations report
    = maxIterations (merge defaultParams params_all_flipped) + 1.
Proof.
  apply (saturated_noise_alternates (fun _ => (1 # 2)%Q) constructor
                                    [0; 1; 1; 0] params_all_flipped 0%nat).
  - intro n. split; [discriminate | reflexivity].
  - reflexivity.
  - discriminate.
  - reflexivity.
  - reflexivity.
  - discriminate.
Defined.

(** ** Statistics kept by the solver *)

Lemma solveFixedPoint_statistics
  (Math_random : nat -> Q) (this : This.t) (d : list Z) (params : Params.t)
  (cursor : nat) :
  let st := This.statistics this in
  let st' :=
    This.statistics
      (solver_after (solveFixedPoint Math_random this d params cursor)) in
  (Statistics.totalRuns st' = Statistics.totalRuns st /\
   Statistics.successfulConvergences st'
   = Statistics.successfulConvergences st) \/
  (Statistics.totalRuns st' = Statistics.totalRuns st + 1 /\
   (Statistics.successfulConvergences st'
    = Statistics.successfulConvergences st \/
    Statistics.successfulConvergences st'
    = Statistics.successfulConvergences st + 1)).
Proof.
  cbv zeta. unfold solveFixedPoint.
  pose proof (iterate_statistics Math_random
                (Z.to_nat (maxIterations (merge defaultParams params)))
                (merge defaultParams params) (resetIterationState this)
                d cursor) as Hst.
  destruct (iterate Math_random _ _ (resetIterationState this) d cursor)
    as [[[d' | msg] t] c]; unfold solver_after in *; simpl in *.
  - right. rewrite Hst. split; [reflexivity |].
    destruct (This.isConverged t); auto.
  - left. rewrite Hst. split; reflexivity.
Qed.

Lemma reachable_counts (this : This.t) :
  reachable this ->
  0 <= Statistics.successfulConvergences (This.statistics this)
    <= Statistics.totalRuns (This.statistics this).
Proof.
  induction 1 as [| rnd this d params cursor _ IH].
  - simpl. lia.
  - pose proof (solveFixedPoint_statistics rnd this d params cursor) as H.
    cbv zeta in H. lia.
Qed.

(** X23.  On every solver object that can be reached from the constructor by
    calls of [solveFixedPoint], the number of successful convergences lies
    between 0 and the number of runs, and the success rate that [getStatus]
    reports lies between 0 and 1. *)
Theorem reachable_success_rate (this : This.t) :
  reachable this ->
  0 <= Statistics.successfulConvergences (This.statistics this)
    <= Statistics.totalRuns (This.statistics this) /\
  (0 <= Status.successRate (getStatus this) /\
   Status.successRate (getStatus this) <= 1)%Q.
Proof.
  intro Hr. pose proof (reachable_counts this Hr) as Hc.
  split; [exact Hc |]. unfold getStatus. cbn [Status.successRate].
  remember (Statistics.totalRuns (This.statistics this)) as t eqn:Et.
  destruct (t >? 0) eqn:E.
  - assert (Ht : t = Z.of_nat (Z.to_nat t)) by lia.
    rewrite Ht. apply Qdiv_nat_bounds. lia.
  - split; discriminate.
Qed.

Lemma reachable_success_rate_witness :
  0 <= Statistics.successfulConvergences
         (This.statistics solver_after_noiseless_run)
    <= Statistics.totalRuns (This.statistics solver_after_noiseless_run) /\
  (0 <= Status.successRate (getStatus solver_after_noiseless_run) /\
   Status.successRate (getStatus solver_after_noiseless_run) <= 1)%Q.
Proof.
  apply (reachable_success_rate solver_after_noiseless_run).
  apply reachable_solve. apply reachable_constructor.
Defined.

(** ** Derived metrics *)

Lemma neg_log_ratio_positive (pair : Number Q * Number Q) :
  decreasing_positive pair = true -> (0 < neg_log_ratio pair)%R.
Proof.
  destruct pair as [[| p] [| c]]; simpl; try discriminate.
  intro H. apply andb_true_iff in H as [H Hcp].
  apply andb_true_iff in H as [Hp Hc].
  apply Qltb_iff in Hp. apply Qltb_iff in Hc. apply Qltb_iff in Hcp.
  pose proof (proj2 (log_ratio_negative c p Hp Hc) Hcp). lra.
Qed.

Lemma sum_neg_log_ratio_nonneg (pairs : list (Number Q * Number Q)) :
  Forall (fun pair => decreasing_positive pair = true) pairs ->
  (0 <= fold_right Rplus 0 (map neg_log_ratio pairs))%R.
Proof.
  induction 1 as [| pair pairs Hp _ IH]; simpl; [lra |].
  pose proof (neg_log_ratio_positive pair Hp). lra.
Qed.

(** X24.  The convergence rate is never negative, whatever the history of
    the solver object holds. *)
Theorem calculateConvergenceRate_nonneg (this : This.t) :
  (0 <= calculateConvergenceRate this)%R.
Proof.
  rewrite calculateConvergenceRate_decreasing.
  unfold decreasing_convergence_rate.
  set (pairs := filter decreasing_positive
                       (pairs_from_third
                          (recorded_errors (This.convergenceHistory this)))).
  assert (Hall : Forall (fun pair => decreasing_positive pair = true) pairs).
  { apply Forall_forall. intros pair Hin. subst pairs.
    now apply filter_In in Hin as [_ Hin]. }
  destruct pairs as [| pair rest]; [lra |].
  unfold mean. apply Rmult_le_pos.
  - now apply sum_neg_log_ratio_nonneg.
  - left. apply Rinv_0_lt_compat. apply lt_0_INR. simpl. lia.
Qed.

Lemma analyze_fold_count (history : list IterationRecord.t) (n : Z) :
  fold_left (fun '(t, c) step =>
               if IterationRecord.errorsCorrected step
               then (t + 1, c + 1) else (t, c))
            history (n, n)
  = (n + Z.of_nat (List.length
                     (filter IterationRecord.errorsCorrected history)),
     n + Z.of_nat (List.length
                     (filter IterationRecord.errorsCorrected history))).
Proof.
  revert n. induction history as [| step h IH]; intro n; simpl.
  - f_equal; lia.
  - destruct (IterationRecord.errorsCorrected step).
    + rewrite IH. cbn [List.length]. f_equal; lia.
    + apply IH.
Qed.

(** X25.  [analyzeErrorCorrection] counts the records flagged
    [errorsCorrected]: both counters equal that number, which is at most the
    length of the history, and the average per iteration is [NaN] on an empty
    history and a fraction between 0 and 1 otherwise. *)
Theorem analyzeErrorCorrection_counts (this : This.t) :
  let stats := analyzeErrorCorrection this in
  let flagged :=
    filter IterationRecord.errorsCorrected (This.convergenceHistory this) in
  ErrorCorrectionStats.totalErrorsDetected stats
  = Z.of_nat (List.length flagged) /\
  ErrorCorrectionStats.errorsCorrected stats
  = Z.of_nat (List.length flagged) /\
  (List.length flagged <= List.length (This.convergenceHistory this))%nat /\
  match ErrorCorrectionStats.averageErrorsPerIteration stats with
  | None => This.convergenceHistory this = []
  | Some q => This.convergenceHistory this <> [] /\ (0 <= q /\ q <= 1)%Q
  end.
Proof.
  cbv zeta. unfold analyzeErrorCorrection.
  rewrite analyze_fold_count.
  pose proof (filter_length_le IterationRecord.errorsCorrected
                               (This.convergenceHistory this)) as Hle.
  cbn [ErrorCorrectionStats.totalErrorsDetected
       ErrorCorrectionStats.errorsCorrected
       ErrorCorrectionStats.averageErrorsPerIteration].
  split; [lia |]. split; [lia |]. split; [exact Hle |].
  destruct (This.convergenceHistory this) as [| step h] eqn:Eh;
    [reflexivity |].
  split; [discriminate |]. apply Qdiv_nat_bounds. lia.
Qed.

(** ** Distribution statistics *)










Lemma squares_nonneg (data : list R) (m acc : R) :
  (0 <= acc)%R ->
  (0 <= fold_left (fun sum val => sum + (val - m) ^ 2) data acc)%R.
Proof.
  revert acc. induction data as [| x data IH]; intros acc Hacc; simpl;
    [exact Hacc |].
  apply IH. pose proof (pow2_ge_0 (x - m)). simpl in H. lra.
Qed.



(** ** The batch runner *)

Section BatchFacts.
Variable Math_random : nat -> Q.

Lemma randomInitialData_valid (cursor : nat) :
  HammingCode.validateDataBits (fst (randomInitialData Math_random cursor))
  = true.
Proof.
  unfold randomInitialData. simpl.
  repeat match goal with
         | |- context [Qltb ?a ?b] => destruct (Qltb a b)
         end; reflexivity.
Qed.

Lemma solveFixedPoint_returns_valid (this : This.t) (d : list Z)
  (params : Params.t) (cursor : nat) :
  HammingCode.validateDataBits d = true ->
  exists report this' cursor',
    solveFixedPoint Math_random this d params cursor
    = (Ok report, this', cursor') /\
    HammingCode.validateDataBits (SolutionReport.finalState report) = true /\
    Statistics.totalRuns (This.statistics this')
    = Statistics.totalRuns (This.statistics this) + 1.
Proof.
  intro Hd. unfold solveFixedPoint.
  pose proof (iterate_statistics Math_random
                (Z.to_nat (maxIterations (merge defaultParams params)))
                (merge defaultParams params) (resetIterationState this)
                d cursor) as Hst.
  destruct (iterate_of_valid Math_random
              (Z.to_nat (maxIterations (merge defaultParams params)))
              (merge defaultParams params) (resetIterationState this)
              d cursor Hd) as (d' & this1 & c' & Hrun & Hd').
  rewrite Hrun in *. unfold solver_after in Hst. simpl in Hst.
  eexists. eexists. eexists. split; [reflexivity |].
  split; [exact Hd' |]. simpl. now rewrite Hst.
Qed.

(** The loop never throws; it adds one report per turn and counts the
    converged ones. *)
Lemma analysis_loop_counts (baseParams : BaseParams.t) (remaining : nat) :
  forall (this : This.t) (cursor : nat) (results : list SolutionReport.t)
         (successCount totalIterations : Z),
  exists results' totalIterations' this' cursor',
    analysis_loop Math_random remaining baseParams this cursor results
                  successCount totalIterations
    = (Ok (results ++ results',
           successCount
           + Z.of_nat (List.length
                         (filter SolutionReport.converged results')),
           totalIterations'),
       this', cursor') /\
    List.length results' = remaining /\
    Forall (fun r => HammingCode.validateDataBits
                       (SolutionReport.finalState r) = true) results' /\
    Statistics.totalRuns (This.statistics this')
    = Statistics.totalRuns (This.statistics this) + Z.of_nat remaining.
Proof.
  induction remaining as [| n IH];
    intros this cursor results successCount totalIterations.
  - exists [], totalIterations, this, cursor. simpl.
    rewrite app_nil_r, Z.add_0_r.
    split; [reflexivity |]. split; [reflexivity |].
    split; [constructor | lia].
  - cbn [analysis_loop].
    pose proof (randomInitialData_valid cursor) as Hd.
    destruct (randomInitialData Math_random cursor) as [d c1].
    simpl in Hd.
    destruct (jitteredParams Math_random baseParams c1) as [params c2].
    destruct (solveFixedPoint_returns_valid this d params c2 Hd)
      as (res & this1 & c3 & Hsolve & Hres & Hruns).
    rewrite Hsolve.
    destruct (SolutionReport.converged res) eqn:Hconv.
    + destruct (IH this1 c3 (results ++ [res]) (successCount + 1)
                   (totalIterations + SolutionReport.iterations res))
        as (rs & ti & this' & c' & Hloop & Hlen & Hall & Ht).
      exists (res :: rs), ti, this', c'. rewrite Hloop.
      rewrite <- app_assoc. cbn [app filter List.length]. rewrite Hconv.
      cbn [List.length].
      replace (successCount
               + Z.of_nat (S (List.length
                                (filter SolutionReport.converged rs))))
        with (successCount + 1
              + Z.of_nat (List.length (filter SolutionReport.converged rs)))
        by lia.
      split; [reflexivity |].
      split; [lia |]. split; [now constructor | lia].
    + destruct (IH this1 c3 (results ++ [res]) successCount totalIterations)
        as (rs & ti & this' & c' & Hloop & Hlen & Hall & Ht).
      exists (res :: rs), ti, this', c'. rewrite Hloop.
      rewrite <- app_assoc. cbn [app filter List.length]. rewrite Hconv.
      split; [reflexivity |].
      split; [lia |]. split; [now constructor | lia].
Qed.
End BatchFacts.

(** X27.  For base parameters that define the error rate and the tolerance,
    [runStatisticalAnalysis] never throws: it returns one report per run,
    each with a 4-bit final state, reports [totalRuns] as requested, a
    success rate that is the fraction of converged reports (between 0 and 1,
    and [NaN] when no run was requested), and it adds the number of runs to
    the statistics of the solver. *)
Theorem runStatisticalAnalysis_counts
  (Math_random : nat -> Q) (this : This.t) (numRuns : Z)
  (baseParams : BaseParams.t) (cursor : nat) :
  exists report this' cursor',
    runStatisticalAnalysis Math_random this numRuns baseParams cursor
    = (Ok report, this', cursor') /\
    AnalysisReport.totalRuns report = numRuns /\
    List.length (AnalysisReport.results report) = Z.to_nat numRuns /\
    Forall (fun r => HammingCode.validateDataBits
                       (SolutionReport.finalState r) = true)
           (AnalysisReport.results report) /\
    match AnalysisReport.successRate report with
    | None => numRuns = 0
    | Some rate =>
        numRuns <> 0 /\
        rate
        = (inject_Z (Z.of_nat (List.length
                                 (filter SolutionReport.converged
                                         (AnalysisReport.results report))))
           / inject_Z numRuns)%Q /\
        (0 <= rate /\ rate <= 1)%Q
    end /\
    Statistics.totalRuns (This.statistics this')
    = Statistics.totalRuns (This.statistics this)
      + Z.of_nat (Z.to_nat numRuns).
Proof.
  unfold runStatisticalAnalysis.
  destruct (analysis_loop_counts Math_random baseParams (Z.to_nat numRuns)
              this cursor [] 0 0)
    as (rs & ti & this' & c' & Hloop & Hlen & Hall & Ht).
  rewrite Hloop. cbn [app Z.add].
  eexists. eexists. eexists. split; [reflexivity |].
  cbn [AnalysisReport.totalRuns AnalysisReport.results
       AnalysisReport.successRate].
  split; [reflexivity |]. split; [exact Hlen |]. split; [exact Hall |].
  split; [| exact Ht].
  destruct (numRuns =? 0) eqn:E; [now apply Z.eqb_eq |].
  apply Z.eqb_neq in E. split; [exact E |]. split; [reflexivity |].
  pose proof (filter_length_le SolutionReport.converged rs) as Hle.
  destruct (Z_lt_le_dec numRuns 0) as [Hneg | Hpos].
  - assert (rs = []) by (destruct rs; [reflexivity | simpl in Hlen; lia]).
    subst rs. simpl. unfold Qdiv. rewrite Qmult_0_l. split; discriminate.
  - assert (Hn : numRuns = Z.of_nat (Z.to_nat numRuns)) by lia.
    rewrite Hn at 1 2. apply Qdiv_nat_bounds. lia.
Qed.

(** ** Declared properties of the code *)

(** X28.  The constants that [getCodeProperties] declares agree with what the
    code computes: the minimum distance is the one
    [calculateMinimumDistance] finds, [totalCodewords] is the size of the
    codebook, every codeword of the codebook has [n] bits and every input
    [k] bits, [n = k + r], the two ratios are [k / n] and [r / n], and the
    two capabilities are those of a code of that minimum distance. *)
Theorem getCodeProperties_agree :
  let p := HammingCode.getCodeProperties in
  HammingCode.calculateMinimumDistance
  = Ok (Fin (HammingCode.CodeProperties.minimumDistance p)) /\
  (exists book,
     HammingCode.generateCodebook = Ok book /\
     Z.of_nat (List.length book) = HammingCode.CodeProperties.totalCodewords p /\
     Forall (fun e =>
               Z.of_nat (List.length (HammingCode.codeword e))
               = HammingCode.CodeProperties.n p /\
               Z.of_nat (List.length (HammingCode.input e))
               = HammingCode.CodeProperties.k p) book) /\
  HammingCode.CodeProperties.n p
  = HammingCode.CodeProperties.k p + HammingCode.CodeProperties.r p /\
  (HammingCode.CodeProperties.codeRate p
   == inject_Z (HammingCode.CodeProperties.k p)
      / inject_Z (HammingCode.CodeProperties.n p))%Q /\
  (HammingCode.CodeProperties.redundancy p
   == inject_Z (HammingCode.CodeProperties.r p)
      / inject_Z (HammingCode.CodeProperties.n p))%Q /\
  HammingCode.CodeProperties.errorDetectionCapability p
  = HammingCode.CodeProperties.minimumDistance p - 1 /\
  HammingCode.CodeProperties.errorCorrectionCapability p
  = (HammingCode.CodeProperties.minimumDistance p - 1) / 2.
Proof.
  cbv zeta. split; [vm_compute; reflexivity |]. split.
  - eexists. split; [vm_compute; reflexivity |]. split; [reflexivity |].
    repeat constructor.
  - repeat split.
Qed.
